(** * Wordle judge and guessing bots (wordle.py): a shallow embedding

    Python strings are lists of characters, Python ints that only count are
    [nat], Python floats are IEEE 754 doubles: every quotient, sum and
    product of the scoring is rounded as the interpreter rounds it, and the
    scores are compared as doubles (the two rates that [test_bot] reports
    are kept as the fractions they round).  Exceptions are an explicit error
    monad; mutable bot attributes ([working_dict]) are threaded through as
    state. *)

From Stdlib Require Import Ascii String List Bool Arith ZArith Lia QArith
  Permutation SpecFloat.
Import ListNotations.

Local Open Scope nat_scope.

(** ** Exceptions *)

Inductive exn : Type :=
| AssertionError (msg : string)
| IndexError
| KeyError
| ZeroDivisionError.

Inductive result (A : Type) : Type :=
| Ok (a : A)
| Raise (e : exn).

Arguments Ok {A} a.
Arguments Raise {A} e.

Definition bind {A B : Type} (m : result A) (k : A -> result B) : result B :=
  match m with
  | Ok a => k a
  | Raise e => Raise e
  end.

Notation "x <- m ;; k" := (bind m (fun x => k))
  (at level 61, m at next level, right associativity).
Notation "' p <- m ;; k" := (bind m (fun x => match x with p => k end))
  (at level 61, p pattern, m at next level, right associativity).

(** [assert cond, msg] *)
Definition assert (cond : bool) (msg : string) : result unit :=
  if cond then Ok tt else Raise (AssertionError msg).

(** The three validation failures of the judge, by their message. *)
Definition InvalidGuess : exn := AssertionError "Word must be 5 letters".
Definition UnknownWord : exn := AssertionError "Word not in dictionary".
Definition InvalidTarget : exn :=
  AssertionError "Invalid target word. Not in dictionary.".

(** A list comprehension whose element expression may raise. *)
Fixpoint mapM {A B : Type} (f : A -> result B) (l : list A) : result (list B) :=
  match l with
  | [] => Ok []
  | x :: l' => y <- f x ;; ys <- mapM f l' ;; Ok (y :: ys)
  end.

(** A list comprehension with an [if] clause that may raise. *)
Fixpoint filterM {A : Type} (p : A -> result bool) (l : list A)
  : result (list A) :=
  match l with
  | [] => Ok []
  | x :: l' =>
      b <- p x ;; ys <- filterM p l' ;; Ok (if b then x :: ys else ys)
  end.

(** ** Strings *)

Definition word : Type := list ascii.

Definition str (s : string) : word := list_ascii_of_string s.

(** [w[i]] for [0 <= i] *)
Definition str_index (w : word) (i : nat) : result ascii :=
  match nth_error w i with
  | Some c => Ok c
  | None => Raise IndexError
  end.

(** [c in w] for a one-character string [c] *)
Definition str_in (c : ascii) (w : word) : bool :=
  existsb (Ascii.eqb c) w.

(** [w.count(c)] for a one-character string [c] *)
Definition str_count (c : ascii) (w : word) : nat :=
  count_occ ascii_dec w c.

Definition word_eqb (a b : word) : bool :=
  if list_eq_dec ascii_dec a b then true else false.

(** [word in words] for a list of strings *)
Definition list_in (w : word) (words : list word) : bool :=
  existsb (word_eqb w) words.

(** [enumerate(l)] *)
Definition enumerate {A : Type} (l : list A) : list (nat * A) :=
  combine (seq 0 (length l)) l.

(** [any(l)] and [all(l)] on a list of booleans *)
Definition any (l : list bool) : bool := existsb (fun b => b) l.
Definition all (l : list bool) : bool := forallb (fun b => b) l.

(** [string.ascii_lowercase] *)
Definition ascii_lowercase : word := str "abcdefghijklmnopqrstuvwxyz".

(** ** class Wordle *)

(** Match status of a letter: 0 = No Match, 1 = Letter in Word,
    2 = Letter in Correct Place. *)
Definition NoMatch : nat := 0.
Definition Present : nat := 1.
Definition ExactMatch : nat := 2.

Definition verdict : Type := (ascii * nat)%type.
Definition record : Type := list verdict.

Record Wordle : Type := mkWordle {
  guesses : nat;
  max_guesses : nat;
  words_base : list word;
  target : word
}.

(** [random.choice(l)]: [r] is the draw of the random source. *)
Definition random_choice {A : Type} (r : nat) (l : list A) : result A :=
  match nth_error l (r mod length l) with
  | Some x => Ok x
  | None => Raise IndexError
  end.

(** [Wordle.set_target]; [r] is the draw used when no target is given. *)
Definition set_target (r : nat) (words : list word) (target_word : option word)
  : result word :=
  match target_word with
  | None => random_choice r words
  | Some t =>
      _ <- assert (list_in t words) "Invalid target word. Not in dictionary." ;;
      Ok t
  end.

(** [Wordle.__init__], the dictionary being supplied already split. *)
Definition Wordle_init (r : nat) (words : list word) (target_word : option word)
  : result Wordle :=
  t <- set_target r words target_word ;;
  Ok (mkWordle 0 6 words t).

(** The body of the [for i in range(0,5)] loop of [try_word]. *)
Definition grade_letter (tgt w : word) (i : nat) : result verdict :=
  wi <- str_index w i ;;
  ti <- str_index tgt i ;;
  if Ascii.eqb wi ti then Ok (wi, 2)
  else if str_in wi tgt then Ok (wi, 1)
  else Ok (wi, 0).

(** [Wordle.try_word] *)
Definition try_word (self : Wordle) (w : word) : result (record * bool) :=
  _ <- assert (length w =? 5) "Word must be 5 letters" ;;
  _ <- assert (list_in w (words_base self)) "Word not in dictionary" ;;
  res <- mapM (grade_letter (target self) w) (seq 0 5) ;;
  let win := all (map (fun l => snd l =? 2) res) in
  Ok (res, win).

(** ** The candidate filter shared by the three filtering bots *)

(** The inner [any([...])] of the comprehension, for one [(i, t)] of
    [enumerate(past_guesses[-1])]: the four tests are all evaluated, so
    [w[i]] is read whatever the status is. *)
Definition excluded (w : word) (it : nat * verdict) : result bool :=
  let '(i, t) := it in
  wi <- str_index w i ;;
  Ok (any [ (snd t =? 0) && str_in (fst t) w ;
            (snd t =? 1) && negb (str_in (fst t) w) ;
            (snd t =? 1) && Ascii.eqb (fst t) wi ;
            (snd t =? 2) && negb (Ascii.eqb (fst t) wi) ]).

(** The [if] clause of the comprehension: [not any([... for i, t in ...])]. *)
Definition keep (last_guess : record) (w : word) : result bool :=
  flags <- mapM (excluded w) (enumerate last_guess) ;;
  Ok (negb (any flags)).

(** [[w for w in working_dict if ...]] against one record. *)
Definition filter_record (working_dict : list word) (last_guess : record)
  : result (list word) :=
  filterM (keep last_guess) working_dict.

(** The [if len(past_guesses) > 0:] block: the new [working_dict]. *)
Definition filter_dict (working_dict : list word) (past_guesses : list record)
  : result (list word) :=
  match past_guesses with
  | [] => Ok working_dict
  | _ :: _ => filter_record working_dict (last past_guesses [])
  end.

(** ** Numbers and dictionaries *)

(** A Python float is an IEEE 754 double: [S754_finite s m e] is the number
    [(-1)^s * m * 2^e], and the operations below are those of the standard
    at precision 53, every result rounded to the nearest double, ties to the
    even mantissa. *)
Definition float : Type := spec_float.

Definition prec : Z := 53.
Definition emax : Z := 1024.


(** [x == 0.0]: true of both zeros. *)
Definition is_zero (x : float) : bool :=
  match x with
  | S754_zero _ => true
  | _ => false
  end.

(** [a + b], [a * b], [a < b] and [a <= b] on two floats *)
Definition float_add : float -> float -> float := SFadd prec emax.
Definition float_mul : float -> float -> float := SFmul prec emax.
Definition float_lt : float -> float -> bool := SFltb.

(** The rounded quotient of two doubles. *)
Definition float_quot : float -> float -> float := SFdiv prec emax.

(** [float(n)]: the double nearest to the int [n], to which Python converts
    an int that meets a float in an operation (here a count of letters of a
    word, and 1). *)
Definition float_of_int (n : nat) : float :=
  binary_normalize prec emax (Z.of_nat n) 0 false.

(** An int as an operand of the division of two ints: the integer itself,
    not rounded. *)
Definition int_operand (n : nat) : float :=
  match n with
  | 0 => S754_zero false
  | S _ => S754_finite false (Pos.of_nat n) 0
  end.

(** The quotient of two ints, rounded once to a double. *)
Definition int_quot (a b : nat) : float :=
  float_quot (int_operand a) (int_operand b).

(** [a / b] on two floats *)
Definition float_div (a b : float) : result float :=
  if is_zero b then Raise ZeroDivisionError else Ok (float_quot a b).

(** [a / b] on two ints.  (The OverflowError of a quotient beyond the doubles
    takes an int above [2^1023]; the ints divided here count the letters and
    the words of a list held in memory.) *)
Definition int_div (a b : nat) : result float :=
  match b with
  | 0 => Raise ZeroDivisionError
  | S _ => Ok (int_quot a b)
  end.

(** [sum(l)] on a list of floats: the items are added from left to right,
    starting from 0, each addition rounded (the interpreters before
    Python 3.12, as when the script was written; later ones compensate the
    rounding errors of the additions). *)
Definition float_sum (l : list float) : float :=
  fold_left float_add l (S754_zero false).

(** An int as a fraction. *)
Definition Qnat (n : nat) : Q := inject_Z (Z.of_nat n).

(** [a / b] on two ints, kept as the exact fraction that Python rounds to a
    double: the two rates of the report of [test_bot] are held this way. *)
Definition true_div (a b : Q) : result Q :=
  if Qeq_bool b 0 then Raise ZeroDivisionError else Ok (a / b)%Q.

(** The exact sum of a list of fractions. *)
Definition Qsum (l : list Q) : Q := fold_left Qplus l 0%Q.

(** A Python dict, in insertion order. *)
Definition dict (K V : Type) : Type := list (K * V).

(** [d[k]] *)
Fixpoint dict_get {K V : Type} (eqb : K -> K -> bool) (d : dict K V) (k : K)
  : result V :=
  match d with
  | [] => Raise KeyError
  | (k', v) :: d' => if eqb k k' then Ok v else dict_get eqb d' k
  end.

(** [d.values()] *)
Definition values {K V : Type} (d : dict K V) : list V := map snd d.

(** The iteration order of sets.  [set(w)] holds the distinct characters of
    [w]; the order in which a set is iterated is not that of [w]: it follows
    the hashes of the characters, which are drawn anew each time the
    interpreter starts.  A run of the interpreter is given by its order. *)
Record set_order : Type := mkSetOrder {
  set : word -> list ascii;
  set_NoDup : forall w, NoDup (set w);
  set_In : forall w c, In c (set w) <-> In c w
}.

(** ** Scoring *)

(** [{l: j.count(l) / len(working_dict) for l in ascii_lowercase}]
    with [j = "".join(working_dict)] *)
Definition char_freq (working_dict : list word) : result (dict ascii float) :=
  let j := concat working_dict in
  mapM (fun l =>
          q <- int_div (str_count l j) (length working_dict) ;;
          Ok (l, q))
       ascii_lowercase.

(** [sum([char_freq[c] for c in set(w)])] *)
Definition freq_score (order : set_order) (cf : dict ascii float) (w : word)
  : result float :=
  xs <- mapM (dict_get Ascii.eqb cf) (set order w) ;;
  Ok (float_sum xs).

(** [sum([1 for w in working_dict if l == w[i]])] *)
Definition cpos_count (working_dict : list word) (l : ascii) (i : nat)
  : result nat :=
  ws <- filterM (fun w => wi <- str_index w i ;; Ok (Ascii.eqb l wi))
                working_dict ;;
  Ok (list_sum (map (fun _ => 1) ws)).

(** [{l: {i: ... for i in range(0,5)} for l in ascii_lowercase}] *)
Definition cpos_freq (working_dict : list word)
  : result (dict ascii (dict nat nat)) :=
  mapM (fun l =>
          row <- mapM (fun i => n <- cpos_count working_dict l i ;; Ok (i, n))
                      (seq 0 5) ;;
          Ok (l, row))
       ascii_lowercase.

(** One summand of the score of [FreqFilterBot2]:
    [char_freq[l] / w.count(l) *
     (1 + (cpos_freq[l][i] / sum(cpos_freq[l].values()) / self.pos_wgt))] *)
Definition pos_term (cf : dict ascii float) (cpos : dict ascii (dict nat nat))
    (pos_wgt : float) (w : word) (il : nat * ascii) : result float :=
  let '(i, l) := il in
  f <- dict_get Ascii.eqb cf l ;;
  a <- float_div f (float_of_int (str_count l w)) ;;
  row <- dict_get Ascii.eqb cpos l ;;
  c <- dict_get Nat.eqb row i ;;
  b <- int_div c (list_sum (values row)) ;;
  b' <- float_div b pos_wgt ;;
  Ok (float_mul a (float_add (float_of_int 1) b')).

(** [sum([... for i, l in enumerate(w)])] *)
Definition pos_score (cf : dict ascii float) (cpos : dict ascii (dict nat nat))
    (pos_wgt : float) (w : word) : result float :=
  xs <- mapM (pos_term cf cpos pos_wgt w) (enumerate w) ;;
  Ok (float_sum xs).

(** [sorted(scores, key=lambda x: x[1], reverse=True)]: a stable sort by
    decreasing score, elements of equal score keeping their order; scores are
    compared with [<] only.  The order of the keys determines the result of
    a stable sort when the keys are numbers; what Python's merge sort makes
    of a NaN among numbers is not modelled. *)
Fixpoint insert_desc (x : word * float) (l : list (word * float))
  : list (word * float) :=
  match l with
  | [] => [x]
  | y :: l' =>
      if float_lt (snd x) (snd y) then y :: insert_desc x l'
      else x :: y :: l'
  end.

Fixpoint sorted_desc (l : list (word * float)) : list (word * float) :=
  match l with
  | [] => []
  | x :: l' => insert_desc x (sorted_desc l')
  end.

(** [scores[0][0]] *)
Definition best (scores : list (word * float)) : result word :=
  match scores with
  | [] => Raise IndexError
  | s :: _ => Ok (fst s)
  end.

(** ** The bots *)

(** Attributes of a bot object; [pos_wgt] is read by [FreqFilterBot2] only
    (an int weight is the double it converts to).  The last three fields are
    the state of the interpreter the bot runs in: [draws] and [drawn] stand
    for the module [random], the [n]-th call of [random.choice] using the
    draw [draws n], and [hash_order] is the iteration order of its sets. *)
Record Bot : Type := mkBot {
  bot_words_base : list word;
  working_dict : list word;
  pos_wgt : float;
  draws : nat -> nat;
  drawn : nat;
  hash_order : set_order
}.

Definition set_working_dict (self : Bot) (wd : list word) : Bot :=
  mkBot (bot_words_base self) wd (pos_wgt self) (draws self) (drawn self)
        (hash_order self).

Definition choice (self : Bot) (l : list word) : result (word * Bot) :=
  w <- random_choice (draws self (drawn self)) l ;;
  Ok (w, mkBot (bot_words_base self) (working_dict self) (pos_wgt self)
               (draws self) (S (drawn self)) (hash_order self)).

(** The interface the game loop uses: a bot class overrides [reset_state]
    and [next_guess]. *)
Class Strategist : Type := {
  reset_state : Bot -> Bot;
  next_guess : Bot -> list record -> result (word * Bot)
}.

(** [WordleBotBase] *)
Definition WordleBotBase_reset_state (self : Bot) : Bot := self.

Definition WordleBotBase_next_guess (self : Bot) (past_guesses : list record)
  : result (word * Bot) :=
  choice self (bot_words_base self).

(** [FilterBot], [FreqFilterBot] and [FreqFilterBot2] share [reset_state]:
    [self.working_dict = self.words_base.copy()] *)
Definition filtering_reset_state (self : Bot) : Bot :=
  set_working_dict self (bot_words_base self).

(** [FilterBot.next_guess] *)
Definition FilterBot_next_guess (self : Bot) (past_guesses : list record)
  : result (word * Bot) :=
  wd <- filter_dict (working_dict self) past_guesses ;;
  let self := set_working_dict self wd in
  choice self (working_dict self).

(** The scoring half of [FreqFilterBot.next_guess], on the filtered
    [working_dict]. *)
Definition freq_guess (order : set_order) (wd : list word) : result word :=
  cf <- char_freq wd ;;
  scores <- mapM (fun w => s <- freq_score order cf w ;; Ok (w, s)) wd ;;
  let scores := sorted_desc scores in
  best scores.

(** [FreqFilterBot.next_guess] *)
Definition FreqFilterBot_next_guess (self : Bot) (past_guesses : list record)
  : result (word * Bot) :=
  wd <- filter_dict (working_dict self) past_guesses ;;
  let self := set_working_dict self wd in
  guess <- freq_guess (hash_order self) (working_dict self) ;;
  Ok (guess, self).

(** The scoring half of [FreqFilterBot2.next_guess]. *)
Definition pos_guess (wgt : float) (wd : list word) : result word :=
  cf <- char_freq wd ;;
  cpos <- cpos_freq wd ;;
  scores <- mapM (fun w => s <- pos_score cf cpos wgt w ;; Ok (w, s)) wd ;;
  let scores := sorted_desc scores in
  best scores.

(** [FreqFilterBot2.next_guess] *)
Definition FreqFilterBot2_next_guess (self : Bot) (past_guesses : list record)
  : result (word * Bot) :=
  wd <- filter_dict (working_dict self) past_guesses ;;
  let self := set_working_dict self wd in
  guess <- pos_guess (pos_wgt self) (working_dict self) ;;
  Ok (guess, self).

#[export] Instance WordleBotBase : Strategist | 10 :=
  {| reset_state := WordleBotBase_reset_state;
     next_guess := WordleBotBase_next_guess |}.

Definition FilterBot : Strategist :=
  {| reset_state := filtering_reset_state;
     next_guess := FilterBot_next_guess |}.

Definition FreqFilterBot : Strategist :=
  {| reset_state := filtering_reset_state;
     next_guess := FreqFilterBot_next_guess |}.

Definition FreqFilterBot2 : Strategist :=
  {| reset_state := filtering_reset_state;
     next_guess := FreqFilterBot2_next_guess |}.

(** ** The game loop *)

(** [self.max_guesses], set to 6 by [WordleBotBase.__init__] and never
    assigned again. *)
Definition bot_max_guesses : nat := 6.

(** What [play_game] returns:
    [(bool win_status, int guess_count, list list_of_guesses_and_results)] *)
Definition outcome : Type := (bool * nat * list record)%type.

Section PlayGame.

Context (bot : Strategist).

(** The judge, [game_instance.try_word]. *)
Variable judge : word -> result (record * bool).

(** The [while True:] loop of [play_game], run for at most [fuel] turns:
    [None] when the fuel runs out before the loop is left. *)
Fixpoint play_loop (fuel : nat) (self : Bot) (guess_ct : nat)
    (past_guesses : list record) : option (result outcome) :=
  match fuel with
  | 0 => None
  | S fuel' =>
      match next_guess self past_guesses with
      | Raise e => Some (Raise e)
      | Ok (w, self') =>
          match judge w with
          | Raise e => Some (Raise e)
          | Ok res =>
              let guess_ct := guess_ct + 1 in
              let past_guesses := past_guesses ++ [fst res] in
              if snd res then Some (Ok (snd res, guess_ct, past_guesses))
              else if guess_ct =? bot_max_guesses
                   then Some (Ok (snd res, guess_ct + 1, past_guesses))
                   else play_loop fuel' self' guess_ct past_guesses
          end
      end
  end.

(** [WordleBotBase.play_game] *)
Definition play_game (fuel : nat) (self : Bot) : option (result outcome) :=
  play_loop fuel (reset_state self) 0 [].

End PlayGame.

(** ** The specification's vocabulary *)

(** A Word of the data model: five lowercase letters. *)
Definition Word (w : word) : Prop :=
  length w = 5 /\ Forall (fun c => In c ascii_lowercase) w.

(** The status the grading rule gives the guess letter [g] standing where
    the target has [t]. *)
Definition graded (tgt : word) (g t : ascii) (s : nat) : Prop :=
  (g = t -> s = ExactMatch) /\
  (g <> t -> In g tgt -> s = Present) /\
  (g <> t -> ~ In g tgt -> s = NoMatch).

(** The dictionary and game of the docstring of [try_word]. *)
Definition whack_words : list word := [str "whack"; str "crank"].
Definition whack_game : Wordle := mkWordle 0 6 whack_words (str "whack").

(** A verdict [(letter, status)] at position [i] rules the candidate [w]
    out: NoMatch when the letter occurs anywhere in [w]; Present when the
    letter is absent from [w] or stands at position [i] of [w]; ExactMatch
    when position [i] of [w] is another letter. *)
Definition disqualifies (w : word) (i : nat) (v : verdict) : Prop :=
  (snd v = NoMatch /\ In (fst v) w) \/
  (snd v = Present /\ (~ In (fst v) w \/ nth_error w i = Some (fst v))) \/
  (snd v = ExactMatch /\ nth_error w i <> Some (fst v)).

(** The filtering done by the successive calls of [next_guess] of one game:
    at each turn the record just graded is appended to [past_guesses] and the
    [if len(past_guesses) > 0:] block narrows the [working_dict]. *)
Fixpoint filter_turns (wd : list word) (past_guesses todo : list record)
  : result (list word) :=
  match todo with
  | [] => Ok wd
  | r :: todo' =>
      wd' <- filter_dict wd (past_guesses ++ [r]) ;;
      filter_turns wd' (past_guesses ++ [r]) todo'
  end.

(** The record of the docstring of [try_word]: crank graded against whack. *)
Definition crank_record : record :=
  [("c"%char, 1); ("r"%char, 0); ("a"%char, 2); ("n"%char, 0); ("k"%char, 2)].

(** What the game loop may report: a win within the six guesses, the guess
    count being the number of graded guesses, or a loss after exactly six
    graded guesses, reported with the guess count 7. *)
Definition well_reported (o : outcome) : Prop :=
  let '(win, guess_ct, past_guesses) := o in
  length past_guesses <= 6 /\
  (win = true -> guess_ct = length past_guesses /\ 1 <= guess_ct <= 6) /\
  (win = false -> guess_ct = 7 /\ length past_guesses = 6) /\
  (win = true <-> guess_ct <= 6).

(** The turns of the loop of [play_game] that do not leave it: from the bot
    [self] and the history [past], the words [gs] are guessed in turn, each
    by [next_guess] on the history so far, and graded by the judge without a
    win, the record being appended to the history; this leaves the bot
    [self'] and the history [past']. *)
Inductive turns (bot : Strategist) (judge : word -> result (record * bool))
  : Bot -> list record -> list word -> Bot -> list record -> Prop :=
| turns_nil (self : Bot) (past : list record) :
    turns bot judge self past [] self past
| turns_cons (self : Bot) (past : list record) (w : word) (self1 : Bot)
    (r : record) (gs : list word) (self' : Bot) (past' : list record) :
    @next_guess bot self past = Ok (w, self1) ->
    judge w = Ok (r, false) ->
    turns bot judge self1 (past ++ [r]) gs self' past' ->
    turns bot judge self past (w :: gs) self' past'.

(** Two iteration orders of sets: the letters of a word in the order of their
    last occurrence, and in the reverse of it. *)
Definition last_seen : set_order :=
  mkSetOrder (nodup ascii_dec) (NoDup_nodup ascii_dec)
             (fun w c => nodup_In ascii_dec w c).

Definition last_seen_reversed : set_order :=
  mkSetOrder (fun w => rev (nodup ascii_dec w))
             (fun w => NoDup_rev (NoDup_nodup ascii_dec w))
             (fun w c => iff_trans (iff_sym (in_rev (nodup ascii_dec w) c))
                                   (nodup_In ascii_dec w c)).

(** A bot over the dictionary of [whack_game] whose every random draw is 1. *)
Definition whack_bot : Bot :=
  mkBot whack_words whack_words (float_of_int 1) (fun _ => 1) 0 last_seen.

(** The number of occurrences of the letter [l] in the words of [wd], a word
    counting once for each occurrence of the letter in it. *)
Definition occurrences (l : ascii) (wd : list word) : nat :=
  list_sum (map (str_count l) wd).

(** The number of words of [wd] that contain the letter [l] at least once. *)
Definition words_containing (l : ascii) (wd : list word) : nat :=
  length (filter (str_in l) wd).

(** The number of words of [wd] with the letter [l] at position [i]. *)
Definition words_with_at (l : ascii) (i : nat) (wd : list word) : nat :=
  length (filter (fun w => Ascii.eqb l (nth i w Ascii.zero)) wd).

(** [posFreq[letter][i]]: the count of candidate words with the letter at
    position [i], over the size of the candidate set. *)
Definition posFreq (wd : list word) (l : ascii) (i : nat) : Q :=
  (Qnat (words_with_at l i wd) / Qnat (length wd))%Q.

(** [charFreq[letter]] as the code has it, in exact arithmetic: the
    occurrences of the letter over the size of the candidate set. *)
Definition charFreq_exact (wd : list word) (l : ascii) : Q :=
  (Qnat (occurrences l wd) / Qnat (length wd))%Q.

(** The positional score as the specification writes it, over a given
    [charFreq] table, in exact arithmetic. *)
Definition spec_pos_score (charFreq : ascii -> Q) (wd : list word)
    (posWeight : Q) (w : word) : Q :=
  Qsum (map (fun il : nat * ascii =>
               let '(i, l) := il in
               ((charFreq l / Qnat (str_count l w)) *
                (1 + posFreq wd l i / Qsum (map (posFreq wd l) (seq 0 5))
                     / posWeight))%Q)
            (enumerate w)).

(** [posFreq[letter][i]] computed as a double. *)
Definition posFreq_double (wd : list word) (l : ascii) (i : nat) : float :=
  int_quot (words_with_at l i wd) (length wd).

(** The same formula computed in doubles, operation by operation, from the
    normalised [posFreq]. *)
Definition spec_pos_score_double (charFreq : ascii -> float) (wd : list word)
    (posWeight : float) (w : word) : float :=
  float_sum
    (map (fun il : nat * ascii =>
            let '(i, l) := il in
            float_mul
              (float_quot (charFreq l) (float_of_int (str_count l w)))
              (float_add (float_of_int 1)
                 (float_quot
                    (float_quot (posFreq_double wd l i)
                       (float_sum (map (posFreq_double wd l) (seq 0 5))))
                    posWeight)))
         (enumerate w)).

(** The formula computed in doubles from the raw position counts: the count
    of candidates with the letter at position [i] over the sum of its five
    position counts stands where the specification has
    [posFreq[l][i] / sum_j(posFreq[l][j])]. *)
Definition raw_pos_score (charFreq : ascii -> float) (wd : list word)
    (posWeight : float) (w : word) : float :=
  float_sum
    (map (fun il : nat * ascii =>
            let '(i, l) := il in
            float_mul
              (float_quot (charFreq l) (float_of_int (str_count l w)))
              (float_add (float_of_int 1)
                 (float_quot
                    (int_quot (words_with_at l i wd)
                       (list_sum (map (fun j => words_with_at l j wd)
                                      (seq 0 5))))
                    posWeight)))
         (enumerate w)).

(** [charFreq[l]] read from the table the bot computed. *)
Definition table (cf : dict ascii float) (l : ascii) : float :=
  match dict_get Ascii.eqb cf l with
  | Ok x => x
  | Raise _ => S754_nan
  end.

(** The number a finite double stands for. *)
Definition float_value (x : float) : Q :=
  match x with
  | S754_finite s m e =>
      ((if s then -1 else 1) * inject_Z (Z.pos m) * Qpower 2 e)%Q
  | _ => 0%Q
  end.


(** A candidate set with a word that repeats a letter. *)
Definition hello_words : list word := [str "hello"; str "world"].


(** A dictionary with two words of equal score ahead of a lesser one. *)
Definition tie_words : list word := [str "abcde"; str "edcba"; str "zzzzz"].

(** A small dictionary around whack, and a [FreqFilterBot2] with weight 1 on
    it, as in the simulation at the end of the script. *)
Definition ack_words : list word :=
  [str "crank"; str "shack"; str "clack"; str "whack"].
Definition ack_game : Wordle := mkWordle 0 6 ack_words (str "whack").
Definition ack_bot : Bot :=
  mkBot ack_words [] (float_of_int 1) (fun _ => 0) 0 last_seen.

(** Candidate sets on which rounding decides: exact ties that the doubles
    break, and a score that the normalised frequencies change. *)
Definition sharp_words : list word := [str "sharp"; str "forty"; str "scope"].
Definition links_words : list word := [str "links"; str "clear"; str "storm"].
Definition eagle_words : list word := [str "eagle"; str "teeth"; str "seeds"].
Definition crank_words : list word := [str "sharp"; str "forty"; str "crank"].

(** ** Closed forms used in the proofs *)

(** The status appended by one turn of the loop of [try_word]. *)
Definition status (tgt : word) (g t : ascii) : nat :=
  if Ascii.eqb g t then 2 else if str_in g tgt then 1 else 0.

(** What [try_word] returns on a guess that passes the two assertions. *)
Definition verdicts (tgt w : word) : record :=
  map (fun i => (nth i w Ascii.zero,
                 status tgt (nth i w Ascii.zero) (nth i tgt Ascii.zero)))
      (seq 0 5).

(** [excluded] and [keep] on a word long enough for every index read. *)
Definition excludedb (w : word) (it : nat * verdict) : bool :=
  let '(i, t) := it in
  let wi := nth i w Ascii.zero in
  any [ (snd t =? 0) && str_in (fst t) w ;
        (snd t =? 1) && negb (str_in (fst t) w) ;
        (snd t =? 1) && Ascii.eqb (fst t) wi ;
        (snd t =? 2) && negb (Ascii.eqb (fst t) wi) ].

Definition keepb (last_guess : record) (w : word) : bool :=
  negb (any (map (excludedb w) (enumerate last_guess))).

(** The tables and scores of the two scoring bots on a non-empty list of
    Words. *)
Definition freq (wd : list word) (l : ascii) : float :=
  int_quot (str_count l (concat wd)) (length wd).

Definition char_freq_table (wd : list word) : dict ascii float :=
  map (fun l => (l, freq wd l)) ascii_lowercase.

Definition cpos_row (wd : list word) (l : ascii) : dict nat nat :=
  map (fun i => (i, words_with_at l i wd)) (seq 0 5).

Definition cpos_table (wd : list word) : dict ascii (dict nat nat) :=
  map (fun l => (l, cpos_row wd l)) ascii_lowercase.

Definition freq_score_of (order : set_order) (wd : list word) (w : word)
  : float :=
  float_sum (map (freq wd) (set order w)).

Definition pos_term_of (wd : list word) (wgt : float) (w : word)
    (il : nat * ascii) : float :=
  let '(i, l) := il in
  float_mul
    (float_quot (freq wd l) (float_of_int (str_count l w)))
    (float_add (float_of_int 1)
       (float_quot
          (int_quot (words_with_at l i wd) (list_sum (values (cpos_row wd l))))
          wgt)).

Definition pos_score_of (wd : list word) (wgt : float) (w : word) : float :=
  float_sum (map (pos_term_of wd wgt w) (enumerate w)).





(** [Word], decided. *)
Definition Wordb (w : word) : bool :=
  (length w =? 5) && forallb (fun c => str_in c ascii_lowercase) w.

(** ** The rest of the script: dictionary loading and [test_bot] *)

(** [s.split(sep)] for a one-character separator [sep]. *)
Fixpoint str_split (sep : ascii) (s : list ascii) : list word :=
  match s with
  | [] => [[]]
  | c :: s' =>
      if Ascii.eqb c sep then [] :: str_split sep s'
      else match str_split sep s' with
           | [] => [[c]]
           | w :: ws => (c :: w) :: ws
           end
  end.

Definition newline : ascii := "010"%char.

(** [create_dictionary], of [Wordle] and of [WordleBotBase] alike, on the
    contents [words_base] read from words.txt: the value assigned to
    [self.words_base]. *)
Definition create_dictionary (words_txt : string) : list word :=
  str_split newline (list_ascii_of_string words_txt).


(** [d[k] = v]: the value is replaced in place when the key is there, a new
    item is appended otherwise. *)
Fixpoint dict_set {K V : Type} (eqb : K -> K -> bool) (d : dict K V) (k : K)
    (v : V) : dict K V :=
  match d with
  | [] => [(k, v)]
  | (k', v') :: d' =>
      if eqb k k' then (k', v) :: d' else (k', v') :: dict_set eqb d' k v
  end.

(** [d.get(k, default)] *)
Definition dict_get_default {K V : Type} (eqb : K -> K -> bool) (d : dict K V)
    (k : K) (default : V) : V :=
  match dict_get eqb d k with
  | Ok v => v
  | Raise _ => default
  end.

(** An item of [bot_results]: [{'win': ..., 'guesses': ..., 'word': ...}]. *)
Record game_result : Type := mkGameResult {
  gr_win : bool;
  gr_guesses : nat;
  gr_word : word
}.

(** [self.test_results] *)
Record test_results : Type := mkTestResults {
  run_count : nat;
  win_rate : Q;
  avg_guesses : Q;
  guess_counts : dict nat nat
}.

(** The loop [for r in bot_results: guess_cts[r['guesses']] = ...]. *)
Definition count_guesses (bot_results : list game_result) : dict nat nat :=
  fold_left
    (fun guess_cts r =>
       dict_set Nat.eqb guess_cts (gr_guesses r)
                (dict_get_default Nat.eqb guess_cts (gr_guesses r) 0 + 1))
    bot_results [].

(** [sum([1 for r in bot_results if r['win']])] *)
Definition win_count (bot_results : list game_result) : nat :=
  list_sum (map (fun _ => 1) (filter gr_win bot_results)).

(** The second half of [test_bot], from [guess_cts = {}] to the assignment of
    [self.test_results] (the prints left out). *)
Definition summarize (run_ct : nat) (bot_results : list game_result)
  : result test_results :=
  let guess_cts := count_guesses bot_results in
  win_rate <- true_div (Qnat (win_count bot_results))
                       (Qnat (length bot_results)) ;;
  avg_guesses <-
    true_div
      (Qnat (list_sum
               (map (fun kv : nat * nat => fst kv * snd kv)
                    (filter (fun kv : nat * nat => negb (fst kv =? 7))
                            guess_cts))))
      (Qnat (win_count bot_results)) ;;
  Ok (mkTestResults run_ct win_rate avg_guesses guess_cts).

(** [random.seed(seed)] followed by the [random.choice] of [set_target]: the
    module [random] then continues with the second draw of the stream of
    [seed]. *)
Definition reseed (self : Bot) (draws_of_seed : nat -> nat) : Bot :=
  mkBot (bot_words_base self) (working_dict self) (pos_wgt self)
        draws_of_seed 1 (hash_order self).

(** [play_game] as called by [test_bot]: the bot object it leaves behind is
    returned with the report. *)
Fixpoint play_loop_self (bot : Strategist)
    (judge : word -> result (record * bool)) (fuel : nat) (self : Bot)
    (guess_ct : nat) (past_guesses : list record)
  : option (result (outcome * Bot)) :=
  match fuel with
  | 0 => None
  | S fuel' =>
      match @next_guess bot self past_guesses with
      | Raise e => Some (Raise e)
      | Ok (w, self') =>
          match judge w with
          | Raise e => Some (Raise e)
          | Ok res =>
              let guess_ct := guess_ct + 1 in
              let past_guesses := past_guesses ++ [fst res] in
              if snd res
              then Some (Ok (snd res, guess_ct, past_guesses, self'))
              else if guess_ct =? bot_max_guesses
                   then Some (Ok (snd res, guess_ct + 1, past_guesses, self'))
                   else play_loop_self bot judge fuel' self' guess_ct
                                       past_guesses
          end
      end
  end.

(** The first loop of [test_bot], [random_seed] being [self.random_seed],
    [words] the dictionary read from words.txt and [stream seed] the draws
    of the module [random] after [random.seed(seed)]. *)
Fixpoint run_games (bot : Strategist) (stream : nat -> nat -> nat)
    (words : list word) (fuel : nat) (random_seed : nat) (run_ct : nat)
    (self : Bot) (bot_results : list game_result)
  : option (result (list game_result * Bot)) :=
  match run_ct with
  | 0 => Some (Ok (bot_results, self))
  | S run_ct' =>
      let seed := random_seed + length bot_results in
      match Wordle_init (stream seed 0) words None with
      | Raise e => Some (Raise e)
      | Ok w =>
          match play_loop_self bot (try_word w) fuel
                  (@reset_state bot (reseed self (stream seed))) 0 [] with
          | None => None
          | Some (Raise e) => Some (Raise e)
          | Some (Ok (res, self')) =>
              run_games bot stream words fuel random_seed run_ct' self'
                (bot_results
                 ++ [mkGameResult (fst (fst res)) (snd (fst res)) (target w)])
          end
      end
  end.

(** [WordleBotBase.test_bot] *)
Definition test_bot (bot : Strategist) (stream : nat -> nat -> nat)
    (words : list word) (fuel : nat) (random_seed : nat) (self : Bot)
    (run_ct : nat) : option (result test_results) :=
  match run_games bot stream words fuel random_seed run_ct self [] with
  | None => None
  | Some (Raise e) => Some (Raise e)
  | Some (Ok (bot_results, _)) => Some (summarize run_ct bot_results)
  end.

(** What [play_game] can put in an item of [bot_results]. *)
Definition played (r : game_result) : Prop :=
  (gr_win r = true /\ 1 <= gr_guesses r <= 6) \/
  (gr_win r = false /\ gr_guesses r = 7).

(** The guesses of the won games of [bot_results], added up. *)
Definition won_guesses (bot_results : list game_result) : nat :=
  list_sum (map gr_guesses (filter gr_win bot_results)).

(** A subsequence: [l'] is [l] with some elements left out. *)
Inductive subseq {A : Type} : list A -> list A -> Prop :=
| subseq_nil : subseq [] []
| subseq_skip (x : A) (l' l : list A) : subseq l' l -> subseq l' (x :: l)
| subseq_keep (x : A) (l' l : list A) :
    subseq l' l -> subseq (x :: l') (x :: l).

(** The bots that filter [working_dict] and then pick a word of it; [ready]
    is what the pick needs of the bot object. *)
Record filtering_bot (bot : Strategist) (ready : Bot -> Prop) : Prop := {
  fb_reset : forall self,
    working_dict (@reset_state bot self) = bot_words_base self /\
    bot_words_base (@reset_state bot self) = bot_words_base self /\
    (ready self -> ready (@reset_state bot self));
  fb_filter_fails : forall self past e,
    filter_dict (working_dict self) past = Raise e ->
    @next_guess bot self past = Raise e;
  fb_pick : forall self past wd,
    filter_dict (working_dict self) past = Ok wd ->
    wd <> [] -> Forall Word wd -> ready self ->
    exists g self',
      @next_guess bot self past = Ok (g, self') /\
      In g wd /\ working_dict self' = wd /\
      bot_words_base self' = bot_words_base self /\ ready self'
}.

(** The guesses [gs] of a game against [game], in order, and its win flag:
    between one and six words of the dictionary, the target being the last
    guess of a won game and no guess of a lost one, which has six. *)
Definition game_trace (game : Wordle) (gs : list word) (win : bool) : Prop :=
  1 <= length gs <= 6 /\
  Forall (fun g => length g = 5 /\ In g (words_base game)) gs /\
  (win = true ->
   last gs [] = target game /\ ~ In (target game) (removelast gs)) /\
  (win = false -> length gs = 6 /\ ~ In (target game) gs).

(** The three bots that filter their [working_dict]. *)
Definition filtering_bots : list Strategist :=
  [FilterBot; FreqFilterBot; FreqFilterBot2].

(** One turn of the histogram loop of [test_bot]. *)
Definition count_step (guess_cts : dict nat nat) (r : game_result)
  : dict nat nat :=
  dict_set Nat.eqb guess_cts (gr_guesses r)
           (dict_get_default Nat.eqb guess_cts (gr_guesses r) 0 + 1).

(** [sum([k * v for k, v in guess_cts.items() if not k==7])] *)
Definition weighted_sum (guess_cts : dict nat nat) : nat :=
  list_sum (map (fun kv : nat * nat => fst kv * snd kv)
                (filter (fun kv : nat * nat => negb (fst kv =? 7))
                        guess_cts)).

(** The number of games of [bot_results] that took [k] guesses. *)
Definition games_with (k : nat) (bot_results : list game_result) : nat :=
  length (filter (fun r => gr_guesses r =? k) bot_results).

(** Some items of [bot_results]: two wins, in 2 and 4 guesses, and a loss. *)
Definition sample_results : list game_result :=
  [mkGameResult true 2 (str "whack"); mkGameResult false 7 (str "crank");
   mkGameResult true 4 (str "shack")].

(** * Properties *)

(** ** The error monad and the comprehensions *)

Lemma bind_ok {A B : Type} (m : result A) (k : A -> result B) (a : A) :
  m = Ok a -> bind m k = k a.
Proof. intros ->. reflexivity. Qed.

Lemma bind_inv {A B : Type} (m : result A) (k : A -> result B) (b : B) :
  bind m k = Ok b -> exists a, m = Ok a /\ k a = Ok b.
Proof. destruct m as [a|e]; simpl; [eauto | discriminate]. Qed.

Lemma mapM_ok {A B : Type} (f : A -> result B) (g : A -> B) (l : list A) :
  (forall x, In x l -> f x = Ok (g x)) -> mapM f l = Ok (map g l).
Proof.
  induction l as [|x l IH]; intros H; simpl; [reflexivity|].
  rewrite (H x (or_introl eq_refl)); simpl.
  rewrite IH by (intros y Hy; apply H; right; exact Hy).
  reflexivity.
Qed.

Lemma filterM_ok {A : Type} (p : A -> result bool) (q : A -> bool)
    (l : list A) :
  (forall x, In x l -> p x = Ok (q x)) -> filterM p l = Ok (filter q l).
Proof.
  induction l as [|x l IH]; intros H; simpl; [reflexivity|].
  rewrite (H x (or_introl eq_refl)); simpl.
  rewrite IH by (intros y Hy; apply H; right; exact Hy).
  simpl. destruct (q x); reflexivity.
Qed.

(** ** Strings *)

Lemma str_in_iff (c : ascii) (w : word) : str_in c w = true <-> In c w.
Proof.
  unfold str_in. rewrite existsb_exists. split.
  - intros [x [Hx He]]. apply Ascii.eqb_eq in He. subst. exact Hx.
  - intros H. exists c. split; [exact H | apply Ascii.eqb_refl].
Qed.

Lemma str_in_false_iff (c : ascii) (w : word) :
  str_in c w = false <-> ~ In c w.
Proof.
  rewrite <- str_in_iff. destruct (str_in c w); split; intros H;
    try reflexivity; try discriminate; try (intros H'; discriminate).
  exfalso; apply H; reflexivity.
Qed.

Lemma word_eqb_iff (a b : word) : word_eqb a b = true <-> a = b.
Proof.
  unfold word_eqb. destruct (list_eq_dec ascii_dec a b); split; intros H;
    try assumption; try reflexivity; try discriminate; contradiction.
Qed.

Lemma list_in_iff (w : word) (words : list word) :
  list_in w words = true <-> In w words.
Proof.
  unfold list_in. rewrite existsb_exists. split.
  - intros [x [Hx He]]. apply word_eqb_iff in He. subst. exact Hx.
  - intros H. exists w. split; [exact H | apply word_eqb_iff; reflexivity].
Qed.

Lemma list_in_false_iff (w : word) (words : list word) :
  list_in w words = false <-> ~ In w words.
Proof.
  rewrite <- list_in_iff. destruct (list_in w words); split; intros H;
    try reflexivity; try discriminate; try (intros H'; discriminate).
  exfalso; apply H; reflexivity.
Qed.

Lemma str_index_ok (w : word) (i : nat) :
  i < length w -> str_index w i = Ok (nth i w Ascii.zero).
Proof.
  intros H. unfold str_index.
  rewrite (nth_error_nth' w Ascii.zero H). reflexivity.
Qed.

(** ** The judge *)

Lemma status_graded (tgt : word) (g t : ascii) : graded tgt g t (status tgt g t).
Proof.
  unfold graded, status, ExactMatch, Present, NoMatch.
  destruct (Ascii.eqb_spec g t) as [E|E].
  - repeat split; intros; try reflexivity; contradiction.
  - destruct (str_in g tgt) eqn:Hin.
    + apply str_in_iff in Hin.
      repeat split; intros; try reflexivity; contradiction.
    + apply str_in_false_iff in Hin.
      repeat split; intros; try reflexivity; contradiction.
Qed.

Lemma status_exact (tgt : word) (g t : ascii) :
  status tgt g t = 2 <-> g = t.
Proof.
  unfold status. destruct (Ascii.eqb_spec g t) as [E|E].
  - split; intros; [exact E | reflexivity].
  - destruct (str_in g tgt); split; intros H; try discriminate; contradiction.
Qed.

Lemma grade_letter_ok (tgt w : word) (i : nat) :
  i < length w -> i < length tgt ->
  grade_letter tgt w i =
    Ok (nth i w Ascii.zero,
        status tgt (nth i w Ascii.zero) (nth i tgt Ascii.zero)).
Proof.
  intros Hw Ht. unfold grade_letter, status.
  rewrite (str_index_ok w i Hw), (str_index_ok tgt i Ht). simpl.
  destruct (Ascii.eqb _ _); [reflexivity|].
  destruct (str_in _ _); reflexivity.
Qed.

Lemma try_word_ok (self : Wordle) (w : word) :
  length (target self) = 5 -> length w = 5 -> In w (words_base self) ->
  try_word self w =
    Ok (verdicts (target self) w,
        all (map (fun l => snd l =? 2) (verdicts (target self) w))).
Proof.
  intros Ht Hw Hin. unfold try_word.
  apply list_in_iff in Hin. rewrite Hw, Hin.
  change (assert (5 =? 5) "Word must be 5 letters") with (Ok tt).
  change (assert true "Word not in dictionary") with (Ok tt).
  cbv beta iota delta [bind].
  rewrite (mapM_ok (grade_letter (target self) w)
             (fun i => (nth i w Ascii.zero,
                        status (target self) (nth i w Ascii.zero)
                               (nth i (target self) Ascii.zero)))).
  - reflexivity.
  - intros i Hi. apply in_seq in Hi.
    apply grade_letter_ok; lia.
Qed.

Lemma verdicts_length (tgt w : word) : length (verdicts tgt w) = 5.
Proof. reflexivity. Qed.

Lemma verdicts_nth (tgt w : word) (i : nat) :
  i < 5 ->
  nth_error (verdicts tgt w) i =
    Some (nth i w Ascii.zero,
          status tgt (nth i w Ascii.zero) (nth i tgt Ascii.zero)).
Proof.
  intros Hi. unfold verdicts.
  rewrite nth_error_map, nth_error_nth' with (d := 0)
    by (rewrite length_seq; exact Hi).
  rewrite seq_nth by exact Hi. reflexivity.
Qed.

Lemma all_exact_iff (tgt w : word) :
  all (map (fun l => snd l =? 2) (verdicts tgt w)) = true <->
  forall i, i < 5 -> nth i w Ascii.zero = nth i tgt Ascii.zero.
Proof.
  unfold all, verdicts. rewrite forallb_forall. split.
  - intros H i Hi.
    apply (status_exact tgt). apply Nat.eqb_eq.
    apply (H (snd (nth i w Ascii.zero,
                   status tgt (nth i w Ascii.zero) (nth i tgt Ascii.zero))
              =? 2)).
    apply in_map_iff. eexists. split; [reflexivity|].
    apply in_map_iff. exists i. split; [reflexivity|].
    apply in_seq. lia.
  - intros H b Hb.
    apply in_map_iff in Hb. destruct Hb as [v [<- Hv]].
    apply in_map_iff in Hv. destruct Hv as [i [<- Hi]].
    apply in_seq in Hi. simpl.
    apply Nat.eqb_eq, status_exact, H. lia.
Qed.

(** C1: for a 5-letter target and a 5-letter guess of the dictionary,
    [try_word] returns exactly 5 verdicts in guess position order; position
    [i] carries the guess letter and is ExactMatch when it equals the target
    letter there, otherwise Present when it occurs anywhere in the target,
    otherwise NoMatch; the win flag is the conjunction of the five statuses
    being ExactMatch; and target whack, guess crank gives
    [(c,1),(r,0),(a,2),(n,0),(k,2)] with no win. *)
Theorem try_word_grades (self : Wordle) (w : word)
    (Ht : length (target self) = 5) (Hw : length w = 5)
    (Hin : In w (words_base self)) :
  (exists res win,
      try_word self w = Ok (res, win) /\
      length res = 5 /\
      (forall i, i < 5 ->
         exists g t s,
           nth_error w i = Some g /\
           nth_error (target self) i = Some t /\
           nth_error res i = Some (g, s) /\
           graded (target self) g t s) /\
      (win = true <->
       forall i v, nth_error res i = Some v -> snd v = ExactMatch)) /\
  try_word whack_game (str "crank") =
    Ok ([("c"%char, Present); ("r"%char, NoMatch); ("a"%char, ExactMatch);
         ("n"%char, NoMatch); ("k"%char, ExactMatch)], false).
Proof.
  split; [|reflexivity].
  exists (verdicts (target self) w),
         (all (map (fun l => snd l =? 2) (verdicts (target self) w))).
  split; [apply try_word_ok; assumption|].
  split; [apply verdicts_length|].
  split.
  - intros i Hi.
    exists (nth i w Ascii.zero), (nth i (target self) Ascii.zero),
           (status (target self) (nth i w Ascii.zero)
                   (nth i (target self) Ascii.zero)).
    split; [apply nth_error_nth'; lia|].
    split; [apply nth_error_nth'; lia|].
    split; [apply verdicts_nth; exact Hi | apply status_graded].
  - rewrite all_exact_iff. unfold ExactMatch. split.
    + intros H i v Hv.
      assert (Hi : i < 5).
      { rewrite <- (verdicts_length (target self) w).
        apply nth_error_Some. rewrite Hv. discriminate. }
      rewrite (verdicts_nth _ _ _ Hi) in Hv. injection Hv as <-. simpl.
      apply status_exact, H, Hi.
    + intros H i Hi.
      apply (status_exact (target self)).
      apply (H i (nth i w Ascii.zero,
                  status (target self) (nth i w Ascii.zero)
                         (nth i (target self) Ascii.zero))).
      apply verdicts_nth, Hi.
Qed.

Lemma try_word_grades_witness :
  (exists res win,
      try_word whack_game (str "crank") = Ok (res, win) /\
      length res = 5 /\
      (forall i, i < 5 ->
         exists g t s,
           nth_error (str "crank") i = Some g /\
           nth_error (target whack_game) i = Some t /\
           nth_error res i = Some (g, s) /\
           graded (target whack_game) g t s) /\
      (win = true <->
       forall i v, nth_error res i = Some v -> snd v = ExactMatch)) /\
  try_word whack_game (str "crank") =
    Ok ([("c"%char, Present); ("r"%char, NoMatch); ("a"%char, ExactMatch);
         ("n"%char, NoMatch); ("k"%char, ExactMatch)], false).
Proof.
  apply (try_word_grades whack_game (str "crank")).
  - reflexivity.
  - reflexivity.
  - simpl. right. left. reflexivity.
Defined.

(** C10: for a 5-letter target and a 5-letter guess of the dictionary,
    [try_word] returns a result, and its win flag is true exactly when the
    guess is the target word. *)
Theorem try_word_win_iff (self : Wordle) (w : word)
    (Ht : length (target self) = 5) (Hw : length w = 5)
    (Hin : In w (words_base self)) :
  exists res win,
    try_word self w = Ok (res, win) /\ (win = true <-> w = target self).
Proof.
  exists (verdicts (target self) w),
         (all (map (fun l => snd l =? 2) (verdicts (target self) w))).
  split; [apply try_word_ok; assumption|].
  rewrite all_exact_iff. split.
  - intros H. apply (nth_ext w (target self) Ascii.zero Ascii.zero).
    + congruence.
    + intros n Hn. apply H. lia.
  - intros -> i _. reflexivity.
Qed.

Lemma try_word_win_iff_witness :
  exists res win,
    try_word whack_game (str "whack") = Ok (res, win) /\
    (win = true <-> str "whack" = target whack_game).
Proof.
  apply (try_word_win_iff whack_game (str "whack")).
  - reflexivity.
  - reflexivity.
  - simpl. left. reflexivity.
Defined.

(** The grading loop itself can only fail on an index out of range. *)
Lemma grade_letter_raises (tgt w : word) (i : nat) (e : exn) :
  grade_letter tgt w i = Raise e -> e = IndexError.
Proof.
  unfold grade_letter, str_index.
  destruct (nth_error w i) as [g|]; simpl; [|congruence].
  destruct (nth_error tgt i) as [t|]; simpl; [|congruence].
  destruct (Ascii.eqb g t); [discriminate|].
  destruct (str_in g tgt); discriminate.
Qed.

Lemma grade_loop_raises (tgt w : word) (l : list nat) (e : exn) :
  mapM (grade_letter tgt w) l = Raise e -> e = IndexError.
Proof.
  induction l as [|i l IH]; simpl; [discriminate|].
  destruct (grade_letter tgt w i) as [v|e'] eqn:Hg; simpl.
  - destruct (mapM (grade_letter tgt w) l) as [vs|e'']; simpl.
    + discriminate.
    + intros H. apply IH. exact H.
  - intros H. injection H as <-. exact (grade_letter_raises _ _ _ _ Hg).
Qed.

Lemma try_word_cases (self : Wordle) (w : word) :
  (length w <> 5 /\ try_word self w = Raise InvalidGuess) \/
  (length w = 5 /\ ~ In w (words_base self) /\
   try_word self w = Raise UnknownWord) \/
  (length w = 5 /\ In w (words_base self) /\
   (try_word self w = Raise IndexError \/ exists r, try_word self w = Ok r)).
Proof.
  unfold try_word.
  remember (mapM (grade_letter (target self) w) (seq 0 5)) as m eqn:Hm.
  symmetry in Hm.
  destruct (Nat.eqb_spec (length w) 5) as [E|E].
  - right. simpl.
    destruct (list_in w (words_base self)) eqn:Hin; simpl.
    + right. apply list_in_iff in Hin.
      split; [exact E|]. split; [exact Hin|].
      destruct m as [res|e].
      * right. eexists. reflexivity.
      * left. apply grade_loop_raises in Hm. subst e. reflexivity.
    + left. apply list_in_false_iff in Hin.
      split; [exact E|]. split; [exact Hin | reflexivity].
  - left. split; [exact E | reflexivity].
Qed.

(** C9, as the code has it: [try_word] fails with InvalidGuess exactly when
    the guess is not 5 letters long, and with UnknownWord exactly when the
    guess is 5 letters long and not in the dictionary (the length is checked
    first); [set_target] with an explicit target fails with InvalidTarget
    exactly when that target is not in the dictionary, and so does the
    construction of the judge; and with a 5-letter target every guess that
    meets both preconditions is graded. *)
Theorem try_word_errors (self : Wordle) (w : word) :
  (try_word self w = Raise InvalidGuess <-> length w <> 5) /\
  (try_word self w = Raise UnknownWord <->
   length w = 5 /\ ~ In w (words_base self)) /\
  (forall r words t,
      (set_target r words (Some t) = Raise InvalidTarget <-> ~ In t words) /\
      (Wordle_init r words (Some t) = Raise InvalidTarget <-> ~ In t words)) /\
  (length (target self) = 5 -> length w = 5 -> In w (words_base self) ->
   exists res, try_word self w = Ok res).
Proof.
  pose proof (try_word_cases self w) as H.
  repeat split.
  - intros E. destruct H as [[Hl _]|[[Hl [_ H]]|[Hl [_ [H|[r H]]]]]];
      try exact Hl; rewrite H in E; discriminate.
  - intros Hl. destruct H as [[_ H]|[[Hl' _]|[Hl' _]]];
      [exact H | contradiction | contradiction].
  - destruct H as [[_ H]|[[Hl _]|[_ [_ [H|[r H]]]]]]; try exact Hl;
      rewrite H in H0; discriminate.
  - destruct H as [[_ H]|[[_ [Hn _]]|[_ [_ [H|[r H]]]]]]; try exact Hn;
      rewrite H in H0; discriminate.
  - intros [Hl Hn]. destruct H as [[Hl' _]|[[_ [_ H]]|[_ [Hi _]]]];
      [contradiction | exact H | contradiction].
  - simpl. destruct (list_in t words) eqn:Hin; simpl.
    + discriminate.
    + intros _. apply list_in_false_iff. exact Hin.
  - simpl. intros Hn. apply list_in_false_iff in Hn. rewrite Hn. reflexivity.
  - unfold Wordle_init. simpl. destruct (list_in t words) eqn:Hin; simpl.
    + discriminate.
    + intros _. apply list_in_false_iff. exact Hin.
  - unfold Wordle_init. simpl. intros Hn.
    apply list_in_false_iff in Hn. rewrite Hn. reflexivity.
  - intros Ht Hw Hin. eexists. apply try_word_ok; assumption.
Qed.

Lemma try_word_errors_witness :
  exists res, try_word whack_game (str "crank") = Ok res.
Proof.
  apply (proj2 (proj2 (proj2 (try_word_errors whack_game (str "crank"))))).
  - reflexivity.
  - reflexivity.
  - simpl. right. left. reflexivity.
Defined.

(** C9 as stated fails: the guess abc is not in the dictionary, yet
    [try_word] does not fail with UnknownWord on it but with InvalidGuess. *)
Lemma unknown_word_counterexample :
  ~ In (str "abc") (words_base whack_game) /\
  try_word whack_game (str "abc") = Raise InvalidGuess /\
  ~ (try_word whack_game (str "abc") = Raise UnknownWord <->
     ~ In (str "abc") (words_base whack_game)).
Proof.
  assert (Hn : ~ In (str "abc") (words_base whack_game)).
  { simpl. intros [H|[H|[]]]; discriminate. }
  split; [exact Hn|]. split; [reflexivity|].
  intros [_ H]. specialize (H Hn). discriminate.
Qed.

(** ** The candidate filter *)

Lemma in_combine_seq {A : Type} (l : list A) (s i : nat) (v : A) :
  In (i, v) (combine (seq s (length l)) l) <->
  s <= i /\ nth_error l (i - s) = Some v.
Proof.
  revert s. induction l as [|x l IH]; intros s; simpl.
  - split; [intros [] | intros [_ H]].
    destruct (i - s); discriminate.
  - rewrite IH. split.
    + intros [H|[Hs Hn]].
      * injection H as <- <-. split; [lia|].
        rewrite Nat.sub_diag. reflexivity.
      * split; [lia|].
        replace (i - s) with (S (i - S s)) by lia. exact Hn.
    + intros [Hs Hn]. destruct (i - s) as [|k] eqn:Hk.
      * left. simpl in Hn. injection Hn as <-. f_equal. lia.
      * right. split; [lia|]. simpl in Hn.
        replace (i - S s) with k by lia. exact Hn.
Qed.

Lemma in_enumerate {A : Type} (l : list A) (i : nat) (v : A) :
  In (i, v) (enumerate l) <-> nth_error l i = Some v.
Proof.
  unfold enumerate. rewrite in_combine_seq, Nat.sub_0_r.
  split; [intros [_ H]; exact H | intros H; split; [lia | exact H]].
Qed.

Lemma excluded_ok (w : word) (i : nat) (t : verdict) :
  i < length w -> excluded w (i, t) = Ok (excludedb w (i, t)).
Proof.
  intros H. unfold excluded, excludedb.
  rewrite (str_index_ok w i H). reflexivity.
Qed.

Lemma keep_ok (last_guess : record) (w : word) :
  length last_guess <= length w -> keep last_guess w = Ok (keepb last_guess w).
Proof.
  intros H. unfold keep, keepb.
  rewrite (mapM_ok (excluded w) (excludedb w)); [reflexivity|].
  intros [i t] Hin. apply in_enumerate in Hin.
  apply excluded_ok.
  assert (i < length last_guess)
    by (apply nth_error_Some; rewrite Hin; discriminate).
  lia.
Qed.

Lemma filter_record_ok (wd : list word) (last_guess : record) :
  Forall (fun w => length last_guess <= length w) wd ->
  filter_record wd last_guess = Ok (filter (keepb last_guess) wd).
Proof.
  intros H. unfold filter_record. apply filterM_ok.
  intros w Hw. apply keep_ok.
  rewrite Forall_forall in H. exact (H w Hw).
Qed.

Lemma excludedb_disqualifies (w : word) (i : nat) (t : verdict) :
  i < length w -> (excludedb w (i, t) = true <-> disqualifies w i t).
Proof.
  intros Hi. unfold excludedb, disqualifies, any, NoMatch, Present, ExactMatch.
  rewrite (nth_error_nth' w Ascii.zero Hi).
  destruct t as [c s]. simpl fst. simpl snd. simpl existsb.
  rewrite orb_false_r, !orb_true_iff, !andb_true_iff, !Nat.eqb_eq,
    !negb_true_iff, str_in_iff, str_in_false_iff, Ascii.eqb_eq,
    Ascii.eqb_neq.
  split.
  - intros [H|[H|[[Hs H]|[Hs H]]]].
    + left. exact H.
    + right. left. split; [apply H | left; apply H].
    + right. left. split; [exact Hs | right; congruence].
    + right. right. split; [exact Hs | congruence].
  - intros [H|[[Hs [H|H]]|[Hs H]]].
    + left. exact H.
    + right. left. split; assumption.
    + right. right. left. split; [exact Hs | congruence].
    + right. right. right. split; [exact Hs | congruence].
Qed.

Lemma keepb_iff (last_guess : record) (w : word) :
  length last_guess <= length w ->
  (keepb last_guess w = true <->
   forall i v, nth_error last_guess i = Some v -> ~ disqualifies w i v).
Proof.
  intros Hl. unfold keepb, any.
  rewrite negb_true_iff. split.
  - intros H i v Hv Hd.
    assert (Hi : i < length w).
    { assert (i < length last_guess)
        by (apply nth_error_Some; rewrite Hv; discriminate). lia. }
    apply (excludedb_disqualifies w i v Hi) in Hd.
    assert (Ht : existsb (fun b => b)
                   (map (excludedb w) (enumerate last_guess)) = true).
    { apply existsb_exists. exists true. split; [|reflexivity].
      rewrite <- Hd. apply in_map. apply in_enumerate. exact Hv. }
    congruence.
  - intros H.
    destruct (existsb (fun b => b) (map (excludedb w) (enumerate last_guess)))
      eqn:E; [|reflexivity].
    exfalso. apply existsb_exists in E. destruct E as [b [Hb ->]].
    apply in_map_iff in Hb. destruct Hb as [[i v] [He Hin]].
    apply in_enumerate in Hin.
    assert (Hi : i < length w).
    { assert (i < length last_guess)
        by (apply nth_error_Some; rewrite Hin; discriminate). lia. }
    apply (H i v Hin). apply excludedb_disqualifies; assumption.
Qed.

(** C3: on a candidate list of 5-letter words and a record of 5 verdicts the
    filter returns a list, and a word is in it exactly when it was a candidate
    and no position of the record disqualifies it: one disqualifying position
    is enough to remove it. *)
Theorem filter_record_keeps (wd : list word) (last_guess : record)
    (Hwd : Forall (fun w => length w = 5) wd)
    (Hlast : length last_guess = 5) :
  exists wd',
    filter_record wd last_guess = Ok wd' /\
    forall w,
      In w wd' <->
      In w wd /\
      forall i v, nth_error last_guess i = Some v -> ~ disqualifies w i v.
Proof.
  exists (filter (keepb last_guess) wd). split.
  - apply filter_record_ok. eapply Forall_impl; [|exact Hwd].
    simpl. intros w Hw. lia.
  - intros w. rewrite filter_In. split.
    + intros [Hin Hk]. split; [exact Hin|].
      apply keepb_iff; [|exact Hk].
      rewrite Forall_forall in Hwd. rewrite (Hwd w Hin). lia.
    + intros [Hin Hk]. split; [exact Hin|].
      apply keepb_iff; [|exact Hk].
      rewrite Forall_forall in Hwd. rewrite (Hwd w Hin). lia.
Qed.

Lemma filter_record_keeps_witness :
  exists wd',
    filter_record whack_words crank_record = Ok wd' /\
    forall w,
      In w wd' <->
      In w whack_words /\
      forall i v, nth_error crank_record i = Some v -> ~ disqualifies w i v.
Proof.
  apply (filter_record_keeps whack_words crank_record).
  - repeat constructor.
  - reflexivity.
Defined.

(** The target is never excluded by a verdict graded against it. *)
Lemma keepb_target (tgt w : word) : keepb (verdicts tgt w) tgt = true.
Proof.
  unfold keepb, any. rewrite negb_true_iff.
  destruct (existsb (fun b => b) (map (excludedb tgt) (enumerate (verdicts tgt w))))
    eqn:E; [|reflexivity].
  exfalso. apply existsb_exists in E. destruct E as [b [Hb ->]].
  apply in_map_iff in Hb. destruct Hb as [[i v] [He Hin]].
  apply in_enumerate in Hin.
  assert (Hi : i < 5).
  { rewrite <- (verdicts_length tgt w). apply nth_error_Some.
    rewrite Hin. discriminate. }
  rewrite (verdicts_nth tgt w i Hi) in Hin. injection Hin as <-.
  revert He. unfold excludedb, status, any. simpl fst. simpl snd.
  destruct (Ascii.eqb (nth i w Ascii.zero) (nth i tgt Ascii.zero));
    [simpl; discriminate|].
  destruct (str_in (nth i w Ascii.zero) tgt); simpl; discriminate.
Qed.

Lemma try_word_inv (self : Wordle) (w : word) (res : record) (win : bool) :
  length (target self) = 5 -> try_word self w = Ok (res, win) ->
  res = verdicts (target self) w.
Proof.
  intros Ht H.
  destruct (try_word_cases self w) as [[_ E]|[[_ [_ E]]|[Hl [Hin _]]]];
    try (rewrite E in H; discriminate).
  rewrite (try_word_ok self w Ht Hl Hin) in H. congruence.
Qed.

Lemma filter_dict_snoc (wd : list word) (past : list record) (r : record) :
  filter_dict wd (past ++ [r]) = filter_record wd r.
Proof.
  unfold filter_dict. rewrite last_last.
  destruct past; reflexivity.
Qed.

Lemma filter_length (q : word -> bool) (wd : list word) :
  Forall (fun w => length w = 5) wd ->
  Forall (fun w => length w = 5) (filter q wd).
Proof.
  rewrite !Forall_forall. intros H w Hw.
  apply filter_In in Hw. apply H, Hw.
Qed.

(** C2: on a candidate list of 5-letter words that contains the target, the
    filter applied to a record obtained by grading a word against that target
    returns a list that still contains the target; hence, through the
    successive filter steps of a game whose records are all graded against
    the target, the target stays in [working_dict]. *)
Theorem filter_keeps_target (self : Wordle) (wd : list word)
    (Hwd : Forall (fun w => length w = 5) wd)
    (Hin : In (target self) wd) :
  (forall w res win,
      try_word self w = Ok (res, win) ->
      exists wd',
        filter_record wd res = Ok wd' /\ In (target self) wd') /\
  (forall past history,
      Forall (fun r => exists w win, try_word self w = Ok (r, win)) history ->
      exists wd',
        filter_turns wd past history = Ok wd' /\ In (target self) wd').
Proof.
  assert (Ht : length (target self) = 5).
  { rewrite Forall_forall in Hwd. exact (Hwd _ Hin). }
  assert (Hstep : forall wd0 w res win,
             Forall (fun w => length w = 5) wd0 ->
             In (target self) wd0 ->
             try_word self w = Ok (res, win) ->
             filter_record wd0 res = Ok (filter (keepb res) wd0) /\
             In (target self) (filter (keepb res) wd0)).
  { intros wd0 w res win Hwd0 Hin0 Hg.
    rewrite (try_word_inv self w res win Ht Hg). split.
    - apply filter_record_ok. eapply Forall_impl; [|exact Hwd0].
      intros c Hc. cbv beta. rewrite verdicts_length, Hc. apply Nat.le_refl.
    - apply filter_In. split; [exact Hin0 | apply keepb_target]. }
  split.
  - intros w res win Hg. eexists. exact (Hstep wd w res win Hwd Hin Hg).
  - intros past history. revert wd Hwd Hin past.
    induction history as [|r history IH]; intros wd Hwd Hin past Hh; simpl.
    + exists wd. split; [reflexivity | exact Hin].
    + inversion Hh as [|r' h' [w [win Hg]] Hh']; subst.
      destruct (Hstep wd w r win Hwd Hin Hg) as [Hf Hk].
      rewrite filter_dict_snoc, Hf. simpl.
      apply IH; [apply filter_length; exact Hwd | exact Hk | exact Hh'].
Qed.

Lemma filter_keeps_target_witness :
  (forall w res win,
      try_word whack_game w = Ok (res, win) ->
      exists wd',
        filter_record whack_words res = Ok wd' /\
        In (target whack_game) wd') /\
  (forall past history,
      Forall (fun r => exists w win, try_word whack_game w = Ok (r, win))
             history ->
      exists wd',
        filter_turns whack_words past history = Ok wd' /\
        In (target whack_game) wd').
Proof.
  apply (filter_keeps_target whack_game whack_words).
  - repeat constructor.
  - simpl. left. reflexivity.
Defined.

(** ** The game loop *)

Section PlayGameFacts.

Context (bot : Strategist).
Variable judge : word -> result (record * bool).

Lemma turns_snoc (self0 : Bot) (past0 : list record) (gs : list word)
    (self : Bot) (past : list record) (w : word) (self' : Bot) (r : record) :
  turns bot judge self0 past0 gs self past ->
  next_guess self past = Ok (w, self') ->
  judge w = Ok (r, false) ->
  turns bot judge self0 past0 (gs ++ [w]) self' (past ++ [r]).
Proof.
  intros H. induction H as [s p|s p w0 s1 r0 gs s' p' Hn Hj _ IH];
    intros Hnext Hjudge; simpl.
  - apply (turns_cons bot judge s p w self' r [] self' (p ++ [r]) Hnext Hjudge).
    constructor.
  - apply (turns_cons bot judge s p w0 s1 r0 _ _ _ Hn Hj).
    exact (IH Hnext Hjudge).
Qed.

Lemma turns_length (self0 : Bot) (past0 : list record) (gs : list word)
    (self : Bot) (past : list record) :
  turns bot judge self0 past0 gs self past ->
  length past = length past0 + length gs.
Proof.
  intros H. induction H as [s p|s p w0 s1 r0 gs s' p' _ _ _ IH]; simpl.
  - lia.
  - rewrite IH, length_app. simpl. lia.
Qed.

(** From a state of the loop reached by fewer than six turns, enough fuel to
    reach the sixth guess is enough to leave the loop, and the loop is left
    as its body says. *)
Lemma play_loop_runs (fuel : nat) :
  forall (self0 : Bot) (gs : list word) (self : Bot) (past : list record),
    turns bot judge self0 [] gs self past ->
    length gs < 6 ->
    6 - length gs <= fuel ->
    exists r gs' self' past',
      play_loop bot judge fuel self (length gs) past = Some r /\
      turns bot judge self0 [] gs' self' past' /\
      length gs' < 6 /\ length past' = length gs' /\
      match r with
      | Ok (win, guess_ct, past_guesses) =>
          (exists w self'' res,
              next_guess self' past' = Ok (w, self'') /\
              judge w = Ok (res, win) /\
              past_guesses = past' ++ [res]) /\
          well_reported (win, guess_ct, past_guesses)
      | Raise e =>
          next_guess self' past' = Raise e \/
          exists w self'',
            next_guess self' past' = Ok (w, self'') /\ judge w = Raise e
      end.
Proof.
  induction fuel as [|fuel IH]; intros self0 gs self past Ht Hlt Hfuel.
  - lia.
  - pose proof (turns_length self0 [] gs self past Ht) as Hlen.
    simpl in Hlen. cbn [play_loop].
    destruct (next_guess self past) as [[w self1]|e] eqn:Hn.
    2:{ exists (Raise e), gs, self, past.
        repeat split; try assumption. left. exact Hn. }
    destruct (judge w) as [[res win]|e] eqn:Hj.
    2:{ exists (Raise e), gs, self, past.
        repeat split; try assumption. right. exists w, self1.
        split; assumption. }
    cbn [fst snd].
    assert (Hlen' : length (past ++ [res]) = length gs + 1).
    { rewrite length_app. simpl. lia. }
    assert (Hturn : exists w0 self'' res0,
               next_guess self past = Ok (w0, self'') /\
               judge w0 = Ok (res0, win) /\
               past ++ [res] = past ++ [res0]).
    { exists w, self1, res. repeat split; assumption. }
    destruct win.
    + exists (Ok (true, length gs + 1, past ++ [res])), gs, self, past.
      split; [reflexivity|]. split; [exact Ht|]. split; [exact Hlt|].
      split; [exact Hlen|]. split; [exact Hturn|].
      unfold well_reported. rewrite Hlen'.
      repeat split; intros; try lia; discriminate.
    + unfold bot_max_guesses.
      destruct (Nat.eqb_spec (length gs + 1) 6) as [E|E].
      * exists (Ok (false, length gs + 1 + 1, past ++ [res])), gs, self, past.
        split; [reflexivity|]. split; [exact Ht|]. split; [exact Hlt|].
        split; [exact Hlen|]. split; [exact Hturn|].
        unfold well_reported. rewrite Hlen'.
        repeat split; intros; try lia; discriminate.
      * pose proof (turns_snoc self0 [] gs self past w self1 res Ht Hn Hj)
          as Ht'.
        replace (length gs + 1) with (length (gs ++ [w]))
          by (rewrite length_app; reflexivity).
        apply (IH self0 (gs ++ [w]) self1 (past ++ [res]) Ht');
          rewrite length_app; cbn [length]; lia.
Qed.

End PlayGameFacts.

(** C8: for every bot and every judge, [play_game] leaves its loop within six
    turns: with fuel for six turns it returns.  Fewer than six turns are
    made that do not end the game, each one grading the guess the bot makes
    from the history so far and appending the record to the history; then
    the next turn ends the game.  The bot makes its guess, the judge grades
    it and the record is appended: on a win, the report has win true and as
    guess count the number of guesses made, between 1 and 6; on the sixth
    guess without a win, the report has win false and the guess count 7; so
    the win flag is true exactly when the guess count is at most 6.  The
    game raises an exception only when the bot raises it on making that
    guess or the judge on grading it. *)
Theorem play_game_terminates (bot : Strategist)
    (judge : word -> result (record * bool)) (self : Bot) (fuel : nat)
    (Hfuel : 6 <= fuel) :
  exists r gs self' past,
    play_game bot judge fuel self = Some r /\
    turns bot judge (reset_state self) [] gs self' past /\
    length gs < 6 /\ length past = length gs /\
    match r with
    | Ok (win, guess_ct, past_guesses) =>
        (exists w self'' res,
            next_guess self' past = Ok (w, self'') /\
            judge w = Ok (res, win) /\
            past_guesses = past ++ [res]) /\
        well_reported (win, guess_ct, past_guesses)
    | Raise e =>
        next_guess self' past = Raise e \/
        exists w self'',
          next_guess self' past = Ok (w, self'') /\ judge w = Raise e
    end.
Proof.
  unfold play_game.
  apply (play_loop_runs bot judge fuel (reset_state self) [] (reset_state self)
           []); simpl; try lia.
  constructor.
Qed.

Lemma play_game_terminates_witness :
  exists r gs self' past,
    play_game WordleBotBase (try_word whack_game) 6 whack_bot = Some r /\
    turns WordleBotBase (try_word whack_game) (reset_state whack_bot) [] gs
          self' past /\
    length gs < 6 /\ length past = length gs /\
    match r with
    | Ok (win, guess_ct, past_guesses) =>
        (exists w self'' res,
            next_guess self' past = Ok (w, self'') /\
            try_word whack_game w = Ok (res, win) /\
            past_guesses = past ++ [res]) /\
        well_reported (win, guess_ct, past_guesses)
    | Raise e =>
        next_guess self' past = Raise e \/
        exists w self'',
          next_guess self' past = Ok (w, self'') /\
          try_word whack_game w = Raise e
    end.
Proof.
  apply (play_game_terminates WordleBotBase (try_word whack_game) whack_bot 6).
  lia.
Defined.

(** ** Sums of rationals *)

Lemma fold_Qplus_acc (l : list Q) (a : Q) :
  (fold_left Qplus l a == a + fold_left Qplus l 0)%Q.
Proof.
  revert a. induction l as [|x l IH]; intros a; simpl.
  - ring.
  - rewrite (IH (a + x)%Q), (IH (0 + x)%Q). ring.
Qed.

Lemma Qsum_cons (x : Q) (l : list Q) : (Qsum (x :: l) == x + Qsum l)%Q.
Proof.
  unfold Qsum. simpl. rewrite fold_Qplus_acc. ring.
Qed.

Lemma Qsum_map_div {A : Type} (f : A -> Q) (n : Q) (l : list A) :
  (Qsum (map (fun x => f x / n) l) == Qsum (map f l) / n)%Q.
Proof.
  induction l as [|x l IH]; simpl.
  - unfold Qsum. simpl. unfold Qdiv. ring.
  - rewrite !Qsum_cons, IH. unfold Qdiv. ring.
Qed.

Lemma Qnat_plus (a b : nat) : (Qnat (a + b) == Qnat a + Qnat b)%Q.
Proof.
  unfold Qnat. rewrite Nat2Z.inj_add, inject_Z_plus. reflexivity.
Qed.

Lemma Qsum_Qnat (l : list nat) :
  (Qsum (map Qnat l) == Qnat (list_sum l))%Q.
Proof.
  induction l as [|x l IH]; simpl.
  - reflexivity.
  - rewrite Qsum_cons, IH, Qnat_plus. reflexivity.
Qed.

Lemma Qnat_eq0 (n : nat) : (Qnat n == 0)%Q <-> n = 0.
Proof.
  unfold Qnat. change 0%Q with (inject_Z 0).
  rewrite inject_Z_injective. lia.
Qed.

Lemma true_div_ok (a b : Q) : ~ (b == 0)%Q -> true_div a b = Ok (a / b)%Q.
Proof.
  intros H. unfold true_div.
  destruct (Qeq_bool b 0) eqn:E; [|reflexivity].
  apply Qeq_bool_eq in E. contradiction.
Qed.

Lemma true_div_nat_ok (a : Q) (n : nat) :
  n <> 0 -> true_div a (Qnat n) = Ok (a / Qnat n)%Q.
Proof.
  intros H. apply true_div_ok. rewrite Qnat_eq0. exact H.
Qed.

(** ** Doubles: the two divisions *)

Lemma int_div_ok (a b : nat) : b <> 0 -> int_div a b = Ok (int_quot a b).
Proof. destruct b; [contradiction | reflexivity]. Qed.

Lemma float_div_ok (a b : float) :
  is_zero b = false -> float_div a b = Ok (float_quot a b).
Proof. intros H. unfold float_div. rewrite H. reflexivity. Qed.

Lemma float_pos_nonzero (x : float) :
  float_lt (float_of_int 0) x = true -> is_zero x = false.
Proof. destruct x; try reflexivity. discriminate. Qed.

(** A count of at most five letters converts to a double other than zero. *)
Lemma float_of_int_small (n : nat) :
  n <> 0 -> n <= 5 -> is_zero (float_of_int n) = false.
Proof.
  intros H0 H5.
  destruct n as [|[|[|[|[|[|n]]]]]]; try lia; reflexivity.
Qed.

(** ** Doubles: the order *)












(** ** Doubles: sums and quotients of numbers that are not negative *)












(** ** Doubles: magnitudes *)

Local Open Scope Z_scope.
























Local Close Scope Z_scope.

(** ** Dictionaries *)

Lemma dict_get_map {K V : Type} (eqb : K -> K -> bool) (f : K -> V)
    (keys : list K) (k : K) :
  (forall a b, eqb a b = true <-> a = b) ->
  In k keys -> dict_get eqb (map (fun x => (x, f x)) keys) k = Ok (f k).
Proof.
  intros Heq. induction keys as [|x keys IH]; intros Hin; simpl.
  - destruct Hin.
  - destruct (eqb k x) eqn:E.
    + apply Heq in E. subst. reflexivity.
    + destruct Hin as [->|Hin]; [|exact (IH Hin)].
      assert (eqb k k = true) by (apply Heq; reflexivity). congruence.
Qed.

(** ** Letter frequencies *)

Lemma count_concat (l : ascii) (wd : list word) :
  str_count l (concat wd) = occurrences l wd.
Proof.
  unfold str_count, occurrences.
  induction wd as [|w wd IH]; simpl; [reflexivity|].
  rewrite count_occ_app, IH. reflexivity.
Qed.

Lemma length_nonzero {A : Type} (l : list A) : l <> [] -> length l <> 0.
Proof. destruct l; simpl; [contradiction | discriminate]. Qed.

Lemma char_freq_ok (wd : list word) :
  wd <> [] -> char_freq wd = Ok (char_freq_table wd).
Proof.
  intros Hne. unfold char_freq, char_freq_table.
  apply mapM_ok. intros l _.
  rewrite (int_div_ok _ _ (length_nonzero wd Hne)). reflexivity.
Qed.

Lemma char_freq_get (wd : list word) (l : ascii) :
  In l ascii_lowercase ->
  dict_get Ascii.eqb (char_freq_table wd) l = Ok (freq wd l).
Proof.
  intros H. unfold char_freq_table.
  apply (dict_get_map Ascii.eqb (freq wd)); [apply Ascii.eqb_eq | exact H].
Qed.

Lemma freq_score_ok (order : set_order) (wd : list word) (w : word) :
  Forall (fun c => In c ascii_lowercase) w ->
  freq_score order (char_freq_table wd) w = Ok (freq_score_of order wd w).
Proof.
  intros Hw. unfold freq_score, freq_score_of.
  rewrite (mapM_ok _ (freq wd)); [reflexivity|].
  intros c Hc. apply char_freq_get.
  apply set_In in Hc.
  rewrite Forall_forall in Hw. exact (Hw c Hc).
Qed.


(** C4, as the code has it: on a non-empty candidate list, [char_freq] holds
    for every letter of the alphabet the number of occurrences of the letter
    in the candidate words (a word with the letter twice counts twice) over
    the number of candidates, as the double this quotient of two ints rounds
    to; and the score of a word of lowercase letters is the sum of these
    doubles over its distinct letters, each letter counted once, the doubles
    being added one after the other in the order in which the set of the
    letters is iterated. *)
Theorem char_freq_counts (order : set_order) (wd : list word)
    (Hne : wd <> []) :
  exists cf,
    char_freq wd = Ok cf /\
    (forall l, In l ascii_lowercase ->
       dict_get Ascii.eqb cf l
       = Ok (int_quot (occurrences l wd) (length wd))) /\
    (forall w, Forall (fun c => In c ascii_lowercase) w ->
       NoDup (set order w) /\
       (forall c, In c (set order w) <-> In c w) /\
       freq_score order cf w
       = Ok (float_sum (map (fun c => int_quot (occurrences c wd) (length wd))
                            (set order w)))).
Proof.
  exists (char_freq_table wd).
  split; [apply char_freq_ok; exact Hne|]. split.
  - intros l Hl. rewrite (char_freq_get wd l Hl).
    unfold freq. rewrite count_concat. reflexivity.
  - intros w Hw.
    split; [apply set_NoDup|]. split; [apply set_In|].
    rewrite (freq_score_ok order wd w Hw). unfold freq_score_of.
    f_equal. f_equal. apply map_ext. intros c.
    unfold freq. rewrite count_concat. reflexivity.
Qed.

Lemma char_freq_counts_witness :
  exists cf,
    char_freq hello_words = Ok cf /\
    (forall l, In l ascii_lowercase ->
       dict_get Ascii.eqb cf l
       = Ok (int_quot (occurrences l hello_words) (length hello_words))) /\
    (forall w, Forall (fun c => In c ascii_lowercase) w ->
       NoDup (set last_seen w) /\
       (forall c, In c (set last_seen w) <-> In c w) /\
       freq_score last_seen cf w
       = Ok (float_sum (map (fun c => int_quot (occurrences c hello_words)
                                               (length hello_words))
                            (set last_seen w)))).
Proof.
  apply (char_freq_counts last_seen hello_words). discriminate.
Defined.

(** C4 as stated fails: in the candidate set hello, world the letter l occurs
    in two words but three times; [char_freq] holds the double 1.5 for it,
    which is 3/2, not the share 2/2 of the words that contain it. *)
Lemma char_freq_counterexample :
  words_containing "l" hello_words = 2 /\
  exists cf,
    char_freq hello_words = Ok cf /\
    dict_get Ascii.eqb cf "l"%char = Ok (int_quot 3 2) /\
    (float_value (int_quot 3 2) == 3 # 2)%Q /\
    dict_get Ascii.eqb cf "l"%char
    <> Ok (int_quot (words_containing "l" hello_words) (length hello_words)).
Proof.
  split; [reflexivity|].
  exists (char_freq_table hello_words).
  split; [apply char_freq_ok; discriminate|].
  split; [reflexivity|]. split; [reflexivity|].
  vm_compute. discriminate.
Qed.

(** ** Positional frequencies *)

Lemma list_sum_ones {A : Type} (l : list A) :
  list_sum (map (fun _ => 1) l) = length l.
Proof. induction l as [|x l IH]; simpl; [reflexivity | rewrite IH; reflexivity]. Qed.

Lemma list_sum_ge (x : nat) (l : list nat) : In x l -> x <= list_sum l.
Proof.
  induction l as [|y l IH]; simpl; [intros []|].
  intros [->|H]; [lia | specialize (IH H); lia].
Qed.

Lemma Word_length (wd : list word) (w : word) :
  Forall Word wd -> In w wd -> length w = 5.
Proof.
  intros H Hin. rewrite Forall_forall in H. exact (proj1 (H w Hin)).
Qed.

Lemma Word_lowercase (wd : list word) (w : word) (c : ascii) :
  Forall Word wd -> In w wd -> In c w -> In c ascii_lowercase.
Proof.
  intros H Hin Hc. rewrite Forall_forall in H.
  destruct (H w Hin) as [_ Hl]. rewrite Forall_forall in Hl. exact (Hl c Hc).
Qed.

Lemma cpos_count_ok (wd : list word) (l : ascii) (i : nat) :
  Forall (fun w => i < length w) wd ->
  cpos_count wd l i = Ok (words_with_at l i wd).
Proof.
  intros H. unfold cpos_count, words_with_at.
  rewrite (filterM_ok _ (fun w => Ascii.eqb l (nth i w Ascii.zero))).
  - simpl. rewrite list_sum_ones. reflexivity.
  - intros w Hw. rewrite Forall_forall in H.
    rewrite (str_index_ok w i (H w Hw)). reflexivity.
Qed.

Lemma cpos_freq_ok (wd : list word) :
  Forall Word wd -> cpos_freq wd = Ok (cpos_table wd).
Proof.
  intros H. unfold cpos_freq, cpos_table.
  apply mapM_ok. intros l _.
  rewrite (mapM_ok _ (fun i => (i, words_with_at l i wd))); [reflexivity|].
  intros i Hi. apply in_seq in Hi.
  rewrite cpos_count_ok; [reflexivity|].
  rewrite Forall_forall. intros w Hw.
  rewrite (Word_length wd w H Hw). lia.
Qed.

Lemma cpos_get (wd : list word) (l : ascii) :
  In l ascii_lowercase ->
  dict_get Ascii.eqb (cpos_table wd) l = Ok (cpos_row wd l).
Proof.
  intros H. unfold cpos_table.
  apply (dict_get_map Ascii.eqb (cpos_row wd)); [apply Ascii.eqb_eq | exact H].
Qed.

Lemma row_get (wd : list word) (l : ascii) (i : nat) :
  i < 5 -> dict_get Nat.eqb (cpos_row wd l) i = Ok (words_with_at l i wd).
Proof.
  intros H. unfold cpos_row.
  apply (dict_get_map Nat.eqb (fun i => words_with_at l i wd));
    [apply Nat.eqb_eq | apply in_seq; lia].
Qed.

Lemma row_values (wd : list word) (l : ascii) :
  values (cpos_row wd l) = map (fun i => words_with_at l i wd) (seq 0 5).
Proof. reflexivity. Qed.

(** A letter of a candidate word is counted at its own position. *)
Lemma words_with_at_pos (wd : list word) (w : word) (i : nat) (l : ascii) :
  In w wd -> nth_error w i = Some l -> words_with_at l i wd <> 0.
Proof.
  intros Hin Hl. unfold words_with_at.
  assert (H : In w (filter (fun w => Ascii.eqb l (nth i w Ascii.zero)) wd)).
  { apply filter_In. split; [exact Hin|].
    rewrite (nth_error_nth w i Ascii.zero Hl). apply Ascii.eqb_refl. }
  destruct (filter (fun w => Ascii.eqb l (nth i w Ascii.zero)) wd);
    [destruct H | discriminate].
Qed.

Lemma row_sum_pos (wd : list word) (w : word) (i : nat) (l : ascii) :
  In w wd -> i < 5 -> nth_error w i = Some l ->
  list_sum (values (cpos_row wd l)) <> 0.
Proof.
  intros Hin Hi Hl. rewrite row_values.
  pose proof (words_with_at_pos wd w i l Hin Hl) as Hpos.
  assert (Hle : words_with_at l i wd
                <= list_sum (map (fun i => words_with_at l i wd) (seq 0 5))).
  { apply list_sum_ge. apply in_map_iff. exists i.
    split; [reflexivity | apply in_seq; lia]. }
  lia.
Qed.

Lemma count_pos (w : word) (i : nat) (l : ascii) :
  nth_error w i = Some l -> str_count l w <> 0.
Proof.
  intros H. apply nth_error_In in H.
  apply (count_occ_In ascii_dec) in H. unfold str_count. lia.
Qed.

Lemma count_le_length (w : word) (l : ascii) : str_count l w <= length w.
Proof. unfold str_count. apply count_occ_bound. Qed.

Lemma pos_term_ok (wd : list word) (wgt : float) (w : word) (i : nat)
    (l : ascii) :
  Forall Word wd -> In w wd -> is_zero wgt = false ->
  nth_error w i = Some l ->
  pos_term (char_freq_table wd) (cpos_table wd) wgt w (i, l)
  = Ok (pos_term_of wd wgt w (i, l)).
Proof.
  intros Hwd Hin Hwgt Hl.
  assert (Hi : i < 5).
  { rewrite <- (Word_length wd w Hwd Hin).
    apply nth_error_Some. rewrite Hl. discriminate. }
  assert (Hlow : In l ascii_lowercase).
  { apply (Word_lowercase wd w l Hwd Hin). exact (nth_error_In w i Hl). }
  assert (Hc : is_zero (float_of_int (str_count l w)) = false).
  { apply float_of_int_small; [exact (count_pos w i l Hl)|].
    rewrite <- (Word_length wd w Hwd Hin). apply count_le_length. }
  unfold pos_term, pos_term_of.
  rewrite (char_freq_get wd l Hlow). cbv beta iota delta [bind].
  rewrite (float_div_ok _ _ Hc). cbv beta iota delta [bind].
  rewrite (cpos_get wd l Hlow). cbv beta iota delta [bind].
  rewrite (row_get wd l i Hi). cbv beta iota delta [bind].
  rewrite (int_div_ok _ _ (row_sum_pos wd w i l Hin Hi Hl)).
  cbv beta iota delta [bind].
  rewrite (float_div_ok _ _ Hwgt). reflexivity.
Qed.

Lemma pos_score_ok (wd : list word) (wgt : float) (w : word) :
  Forall Word wd -> In w wd -> is_zero wgt = false ->
  pos_score (char_freq_table wd) (cpos_table wd) wgt w
  = Ok (pos_score_of wd wgt w).
Proof.
  intros Hwd Hin Hwgt. unfold pos_score, pos_score_of.
  rewrite (mapM_ok _ (pos_term_of wd wgt w)); [reflexivity|].
  intros [i l] Hil. apply in_enumerate in Hil.
  apply pos_term_ok; assumption.
Qed.




(** The sum of the normalised positional frequencies of a letter is the sum
    of its raw position counts over the size of the candidate set. *)
Lemma posFreq_sum (wd : list word) (l : ascii) :
  (Qsum (map (posFreq wd l) (seq 0 5))
   == Qnat (list_sum (values (cpos_row wd l))) / Qnat (length wd))%Q.
Proof.
  unfold posFreq.
  rewrite (Qsum_map_div (fun i => Qnat (words_with_at l i wd))).
  rewrite row_values, <- Qsum_Qnat, map_map. reflexivity.
Qed.

(** In exact arithmetic only the ratio of the position counts enters the
    score: the size of the candidate set cancels. *)
Lemma posFreq_ratio (wd : list word) (w : word) (i : nat) (l : ascii) :
  wd <> [] -> In w wd -> i < 5 -> nth_error w i = Some l ->
  (Qnat (words_with_at l i wd)
   / Qnat (list_sum (map (fun j => words_with_at l j wd) (seq 0 5)))
   == posFreq wd l i / Qsum (map (posFreq wd l) (seq 0 5)))%Q.
Proof.
  intros Hne Hin Hi Hl.
  rewrite posFreq_sum. unfold posFreq. rewrite row_values.
  pose proof (row_sum_pos wd w i l Hin Hi Hl) as Hs.
  pose proof (length_nonzero wd Hne) as Hn.
  rewrite row_values in Hs.
  rewrite <- Qnat_eq0 in Hs, Hn.
  field. split; assumption.
Qed.

(** ** Sorting by decreasing score *)

Lemma insert_desc_perm (x : word * float) (l : list (word * float)) :
  Permutation (x :: l) (insert_desc x l).
Proof.
  induction l as [|y l IH]; simpl; [apply Permutation_refl|].
  destruct (float_lt (snd x) (snd y)).
  - apply perm_trans with (y :: x :: l); [apply perm_swap|].
    apply perm_skip. exact IH.
  - apply Permutation_refl.
Qed.

Lemma sorted_desc_perm (l : list (word * float)) :
  Permutation l (sorted_desc l).
Proof.
  induction l as [|x l IH]; simpl; [apply perm_nil|].
  apply perm_trans with (x :: sorted_desc l);
    [apply perm_skip; exact IH | apply insert_desc_perm].
Qed.


(** The guess is a word of the list, whatever the scores. *)
Lemma best_member (score : word -> float) (wd : list word) :
  wd <> [] ->
  exists g,
    best (sorted_desc (map (fun w => (w, score w)) wd)) = Ok g /\ In g wd.
Proof.
  intros Hne.
  pose proof (sorted_desc_perm (map (fun w => (w, score w)) wd)) as Hp.
  destruct (sorted_desc (map (fun w => (w, score w)) wd)) as [|x rest] eqn:E.
  - apply Permutation_sym, Permutation_nil in Hp.
    destruct wd; [contradiction | discriminate].
  - exists (fst x). split; [reflexivity|].
    assert (Hx : In x (map (fun w => (w, score w)) wd)).
    { apply (Permutation_in x (Permutation_sym Hp)). left. reflexivity. }
    apply in_map_iff in Hx. destruct Hx as [w [<- Hw]]. exact Hw.
Qed.


(** ** The two scoring bots *)

Lemma freq_guess_ok (order : set_order) (wd : list word) :
  wd <> [] -> Forall Word wd ->
  freq_guess order wd
  = best (sorted_desc (map (fun w => (w, freq_score_of order wd w)) wd)).
Proof.
  intros Hne Hwd. unfold freq_guess.
  rewrite (char_freq_ok wd Hne). cbv beta iota delta [bind].
  rewrite (mapM_ok _ (fun w => (w, freq_score_of order wd w)));
    [reflexivity|].
  intros w Hw. rewrite freq_score_ok; [reflexivity|].
  rewrite Forall_forall in Hwd. exact (proj2 (Hwd w Hw)).
Qed.

Lemma pos_guess_ok (wgt : float) (wd : list word) :
  wd <> [] -> Forall Word wd -> is_zero wgt = false ->
  pos_guess wgt wd
  = best (sorted_desc (map (fun w => (w, pos_score_of wd wgt w)) wd)).
Proof.
  intros Hne Hwd Hwgt. unfold pos_guess.
  rewrite (char_freq_ok wd Hne), (cpos_freq_ok wd Hwd).
  cbv beta iota delta [bind].
  rewrite (mapM_ok _ (fun w => (w, pos_score_of wd wgt w))); [reflexivity|].
  intros w Hw. rewrite pos_score_ok; [reflexivity | assumption..].
Qed.

Lemma Wordb_Word (wd : list word) : forallb Wordb wd = true -> Forall Word wd.
Proof.
  rewrite forallb_forall, Forall_forall. intros H w Hw.
  specialize (H w Hw). unfold Wordb in H.
  apply andb_true_iff in H. destruct H as [Hl Hc].
  split; [apply Nat.eqb_eq; exact Hl|].
  rewrite forallb_forall in Hc. rewrite Forall_forall.
  intros c Hin. apply str_in_iff. exact (Hc c Hin).
Qed.

(** C5, as the code has it: on a non-empty candidate list of Words and a
    positive weight, the score [FreqFilterBot2] gives a candidate [w] is the
    sum over the positions [i] of [w], with letter [l] there, of
    [(charFreq[l] / count of l in w) *
     (1 + (count of candidates with l at i / sum_j of these counts)
          / posWeight)],
    computed in doubles, each operation rounded and the five terms added
    from left to right, [charFreq] being the table the bot computed.  In
    exact arithmetic the ratio of the raw position counts is the ratio
    [posFreq[l][i] / sum_j posFreq[l][j]] of the normalised frequencies. *)
Theorem pos_score_formula (wd : list word) (wgt : float) (w : word)
    (Hne : wd <> []) (Hwd : Forall Word wd)
    (Hwgt : float_lt (float_of_int 0) wgt = true)
    (Hin : In w wd) :
  exists cf cpos s,
    char_freq wd = Ok cf /\
    cpos_freq wd = Ok cpos /\
    pos_score cf cpos wgt w = Ok s /\
    s = raw_pos_score (table cf) wd wgt w /\
    (forall i l, nth_error w i = Some l ->
       (Qnat (words_with_at l i wd)
        / Qnat (list_sum (map (fun j => words_with_at l j wd) (seq 0 5)))
        == posFreq wd l i / Qsum (map (posFreq wd l) (seq 0 5)))%Q).
Proof.
  pose proof (float_pos_nonzero wgt Hwgt) as Hz.
  exists (char_freq_table wd), (cpos_table wd), (pos_score_of wd wgt w).
  split; [apply char_freq_ok; exact Hne|].
  split; [apply cpos_freq_ok; exact Hwd|].
  split; [apply pos_score_ok; assumption|]. split.
  - unfold pos_score_of, raw_pos_score. f_equal.
    apply map_ext_in. intros [i l] Hil. apply in_enumerate in Hil.
    unfold pos_term_of, table.
    rewrite (char_freq_get wd l);
      [reflexivity
      | apply (Word_lowercase wd w l Hwd Hin); exact (nth_error_In w i Hil)].
  - intros i l Hl. apply (posFreq_ratio wd w i l Hne Hin); [|exact Hl].
    rewrite <- (Word_length wd w Hwd Hin).
    apply nth_error_Some. rewrite Hl. discriminate.
Qed.

Lemma pos_score_formula_witness :
  exists cf cpos s,
    char_freq hello_words = Ok cf /\
    cpos_freq hello_words = Ok cpos /\
    pos_score cf cpos (float_of_int 1) (str "hello") = Ok s /\
    s = raw_pos_score (table cf) hello_words (float_of_int 1) (str "hello") /\
    (forall i l, nth_error (str "hello") i = Some l ->
       (Qnat (words_with_at l i hello_words)
        / Qnat (list_sum (map (fun j => words_with_at l j hello_words)
                              (seq 0 5)))
        == posFreq hello_words l i
           / Qsum (map (posFreq hello_words l) (seq 0 5)))%Q).
Proof.
  apply (pos_score_formula hello_words (float_of_int 1) (str "hello")).
  - discriminate.
  - apply Wordb_Word. reflexivity.
  - reflexivity.
  - simpl. left. reflexivity.
Defined.

(** C5 as stated fails.  On the candidate set eagle, teeth, seeds with weight
    1 the score the bot gives teeth is the double 4.333333333333333.  The
    formula of the specification, computed in doubles from the normalised
    [posFreq], gives the next double, 4.333333333333334: the raw counts and
    the normalised frequencies do not yield the same score.  And the value
    of the formula in exact arithmetic is 13/3, which is not the value of
    the bot's double. *)
Lemma pos_score_counterexample :
  exists cf cpos s,
    char_freq eagle_words = Ok cf /\
    cpos_freq eagle_words = Ok cpos /\
    pos_score cf cpos (float_of_int 1) (str "teeth") = Ok s /\
    s = S754_finite false 4878899596318037 (-50) /\
    spec_pos_score_double (table cf) eagle_words (float_of_int 1) (str "teeth")
    = S754_finite false 4878899596318038 (-50) /\
    s <> spec_pos_score_double (table cf) eagle_words (float_of_int 1)
                               (str "teeth") /\
    (spec_pos_score (charFreq_exact eagle_words) eagle_words 1 (str "teeth")
     == 13 # 3)%Q /\
    ~ (float_value s
       == spec_pos_score (charFreq_exact eagle_words) eagle_words 1
                         (str "teeth"))%Q.
Proof.
  exists (char_freq_table eagle_words), (cpos_table eagle_words),
         (S754_finite false 4878899596318037 (-50)).
  split; [vm_compute; reflexivity|].
  split; [vm_compute; reflexivity|].
  split; [vm_compute; reflexivity|].
  split; [reflexivity|].
  split; [vm_compute; reflexivity|].
  split; [vm_compute; discriminate|].
  split; [vm_compute; reflexivity|].
  vm_compute. discriminate.
Qed.

(** C6: on a non-empty candidate list of Words and a positive weight, no
    division of the scoring of [FreqFilterBot2] is by zero: for every
    candidate [w] and every position [i] of it, with letter [l] there, the
    count of [l] in [w] (and the double it is converted to), the sum of the
    position counts of [l] and the sum of its positional frequencies are all
    nonzero, and so is the weight; every candidate gets a score and the bot
    returns a guess. *)
Theorem pos_score_defined (wd : list word) (wgt : float)
    (Hne : wd <> []) (Hwd : Forall Word wd)
    (Hwgt : float_lt (float_of_int 0) wgt = true) :
  exists cf cpos,
    char_freq wd = Ok cf /\
    cpos_freq wd = Ok cpos /\
    (forall w i l,
        In w wd -> nth_error w i = Some l ->
        str_count l w <> 0 /\
        is_zero (float_of_int (str_count l w)) = false /\
        (exists row,
            dict_get Ascii.eqb cpos l = Ok row /\
            list_sum (values row) <> 0) /\
        ~ (Qsum (map (posFreq wd l) (seq 0 5)) == 0)%Q) /\
    is_zero wgt = false /\
    (forall w, In w wd -> exists s, pos_score cf cpos wgt w = Ok s) /\
    exists g, pos_guess wgt wd = Ok g.
Proof.
  pose proof (float_pos_nonzero wgt Hwgt) as Hz.
  exists (char_freq_table wd), (cpos_table wd).
  split; [apply char_freq_ok; exact Hne|].
  split; [apply cpos_freq_ok; exact Hwd|].
  split; [|split; [exact Hz|split]].
  - intros w i l Hin Hl.
    assert (Hi : i < 5).
    { rewrite <- (Word_length wd w Hwd Hin).
      apply nth_error_Some. rewrite Hl. discriminate. }
    pose proof (row_sum_pos wd w i l Hin Hi Hl) as Hs.
    split; [exact (count_pos w i l Hl)|]. split; [|split].
    + apply float_of_int_small; [exact (count_pos w i l Hl)|].
      rewrite <- (Word_length wd w Hwd Hin). apply count_le_length.
    + exists (cpos_row wd l). split; [|exact Hs].
      apply cpos_get. apply (Word_lowercase wd w l Hwd Hin).
      exact (nth_error_In w i Hl).
    + rewrite posFreq_sum. intros E.
      pose proof (length_nonzero wd Hne) as Hn.
      rewrite <- Qnat_eq0 in Hs, Hn.
      apply Hs. rewrite <- (Qmult_div_r (Qnat (list_sum (values (cpos_row wd l))))
                              (Qnat (length wd)) Hn).
      rewrite E. ring.
  - intros w Hin. exists (pos_score_of wd wgt w).
    apply pos_score_ok; assumption.
  - rewrite (pos_guess_ok wgt wd Hne Hwd Hz).
    destruct (best_member (pos_score_of wd wgt) wd Hne) as [g [Hg _]].
    exists g. exact Hg.
Qed.

Lemma pos_score_defined_witness :
  exists cf cpos,
    char_freq hello_words = Ok cf /\
    cpos_freq hello_words = Ok cpos /\
    (forall w i l,
        In w hello_words -> nth_error w i = Some l ->
        str_count l w <> 0 /\
        is_zero (float_of_int (str_count l w)) = false /\
        (exists row,
            dict_get Ascii.eqb cpos l = Ok row /\
            list_sum (values row) <> 0) /\
        ~ (Qsum (map (posFreq hello_words l) (seq 0 5)) == 0)%Q) /\
    is_zero (float_of_int 1) = false /\
    (forall w, In w hello_words ->
       exists s, pos_score cf cpos (float_of_int 1) w = Ok s) /\
    exists g, pos_guess (float_of_int 1) hello_words = Ok g.
Proof.
  apply (pos_score_defined hello_words (float_of_int 1)).
  - discriminate.
  - apply Wordb_Word. reflexivity.
  - reflexivity.
Defined.



(** ** Runs on concrete dictionaries *)

(** The doubles of 1/3 and 2/3, 0.3333333333333333 and 0.6666666666666666,
    and two sums of the same five of them, 2.666666666666667 and
    2.6666666666666665. *)
Example int_quot_thirds :
  int_quot 1 3 = S754_finite false 6004799503160661 (-54) /\
  int_quot 2 3 = S754_finite false 6004799503160661 (-53) /\
  float_sum [int_quot 2 3; int_quot 2 3; int_quot 2 3; int_quot 1 3;
             int_quot 1 3]
  = S754_finite false 6004799503160662 (-51) /\
  float_sum [int_quot 2 3; int_quot 1 3; int_quot 1 3; int_quot 2 3;
             int_quot 2 3]
  = S754_finite false 6004799503160661 (-51).
Proof. repeat split; vm_compute; reflexivity. Qed.

Example freq_guess_hello :
  freq_guess last_seen hello_words = Ok (str "world").
Proof. vm_compute. reflexivity. Qed.

Example freq_guess_tie : freq_guess last_seen tie_words = Ok (str "abcde").
Proof. vm_compute. reflexivity. Qed.

Example freq_guess_empty :
  freq_guess last_seen [] = Raise ZeroDivisionError.
Proof. reflexivity. Qed.

(** Rounding decides between words whose scores are equal in exact
    arithmetic: sharp and scope both score 14/3 at weight 1, links, clear and
    storm all score 19/6 at weight 2, and in each list the last word gets
    the greatest double. *)
Example pos_guess_sharp :
  pos_guess (float_of_int 1) sharp_words = Ok (str "scope") /\
  map (pos_score_of sharp_words (float_of_int 1)) sharp_words
  = [S754_finite false 5254199565265578 (-50);
     S754_finite false 9007199254740991 (-51);
     S754_finite false 5254199565265579 (-50)].
Proof. split; vm_compute; reflexivity. Qed.

Example pos_guess_links :
  pos_guess (float_of_int 2) links_words = Ok (str "storm") /\
  map (pos_score_of links_words (float_of_int 2)) links_words
  = [S754_finite false 7130699410003284 (-51);
     S754_finite false 7130699410003284 (-51);
     S754_finite false 7130699410003285 (-51)].
Proof. split; vm_compute; reflexivity. Qed.

(** The iteration order of the sets decides too: the letters of sharp and of
    crank have the same frequencies over sharp, forty, crank, and which of
    the two words [FreqFilterBot] guesses depends on the order in which
    their letters are added. *)
Example freq_guess_order :
  freq_guess last_seen crank_words = Ok (str "crank") /\
  freq_guess last_seen_reversed crank_words = Ok (str "sharp").
Proof. split; vm_compute; reflexivity. Qed.

Example filter_crank :
  filter_record ack_words crank_record = Ok [str "shack"; str "whack"].
Proof. reflexivity. Qed.

Example filter_short_word :
  filter_record [str "whack"; str ""] crank_record = Raise IndexError.
Proof. reflexivity. Qed.

Example play_random_lost :
  play_game WordleBotBase (try_word whack_game) 6 whack_bot
  = Some (Ok (false, 7, repeat crank_record 6)).
Proof. vm_compute. reflexivity. Qed.

Example play_ack_won :
  play_game FreqFilterBot2 (try_word ack_game) 6 ack_bot
  = Some (Ok (true, 2,
              [[("s"%char, 0); ("h"%char, 2); ("a"%char, 2); ("c"%char, 2);
                ("k"%char, 2)];
               [("w"%char, 2); ("h"%char, 2); ("a"%char, 2); ("c"%char, 2);
                ("k"%char, 2)]])).
Proof. vm_compute. reflexivity. Qed.

(** * Further properties of the script *)

(** ** The judge *)

Lemma mapM_Ok_all {A B : Type} (f : A -> result B) (l : list A)
    (ys : list B) :
  mapM f l = Ok ys -> forall x, In x l -> exists y, f x = Ok y.
Proof.
  revert ys. induction l as [|a l IH]; intros ys H x Hx; [destruct Hx|].
  simpl in H. destruct (f a) as [b|e] eqn:Ha; [|discriminate].
  simpl in H. destruct (mapM f l) as [bs|e] eqn:Hl; [|discriminate].
  destruct Hx as [<-|Hx]; [exists b; exact Ha | exact (IH bs eq_refl x Hx)].
Qed.

Lemma random_choice_in {A : Type} (r : nat) (l : list A) (x : A) :
  random_choice r l = Ok x -> In x l.
Proof.
  unfold random_choice.
  destruct (nth_error l (r mod length l)) as [y|] eqn:E; [|discriminate].
  intros H. injection H as <-. exact (nth_error_In _ _ E).
Qed.

Lemma random_choice_ok {A : Type} (r : nat) (l : list A) :
  l <> [] -> exists x, random_choice r l = Ok x /\ In x l.
Proof.
  intros Hne. unfold random_choice.
  assert (Hlt : r mod length l < length l).
  { apply Nat.mod_upper_bound. destruct l; [contradiction | discriminate]. }
  destruct (nth_error l (r mod length l)) as [y|] eqn:E.
  - exists y. split; [reflexivity | exact (nth_error_In _ _ E)].
  - apply nth_error_None in E. lia.
Qed.

(** X1: a judge that [Wordle.__init__] returns has its target in its
    dictionary, whether the target was given or drawn; without an explicit
    target the construction fails, with IndexError, exactly on an empty
    dictionary. *)
Theorem Wordle_init_target (r : nat) (words : list word)
    (target_word : option word) :
  (forall w, Wordle_init r words target_word = Ok w ->
     In (target w) (words_base w) /\ words_base w = words /\
     max_guesses w = 6) /\
  (words <> [] -> exists w, Wordle_init r words None = Ok w) /\
  (words = [] -> Wordle_init r words None = Raise IndexError).
Proof.
  split; [|split].
  - intros w H. unfold Wordle_init in H.
    destruct (set_target r words target_word) as [t|e] eqn:Ht;
      [|discriminate].
    simpl in H. injection H as <-. simpl.
    split; [|split; reflexivity].
    destruct target_word as [t'|]; simpl in Ht.
    + destruct (list_in t' words) eqn:Hin; [|discriminate].
      simpl in Ht. injection Ht as <-. apply list_in_iff. exact Hin.
    + exact (random_choice_in r words t Ht).
  - intros Hne. destruct (random_choice_ok r words Hne) as [t [Ht _]].
    unfold Wordle_init. simpl. rewrite Ht. simpl. eexists. reflexivity.
  - intros ->. unfold Wordle_init, set_target, random_choice. simpl.
    destruct r; reflexivity.
Qed.

Lemma try_word_ok_long (self : Wordle) (w : word) :
  5 <= length (target self) -> length w = 5 -> In w (words_base self) ->
  try_word self w =
    Ok (verdicts (target self) w,
        all (map (fun l => snd l =? 2) (verdicts (target self) w))).
Proof.
  intros Ht Hw Hin. unfold try_word.
  apply list_in_iff in Hin. rewrite Hw, Hin.
  change (assert (5 =? 5) "Word must be 5 letters") with (Ok tt).
  change (assert true "Word not in dictionary") with (Ok tt).
  cbv beta iota delta [bind].
  rewrite (mapM_ok (grade_letter (target self) w)
             (fun i => (nth i w Ascii.zero,
                        status (target self) (nth i w Ascii.zero)
                               (nth i (target self) Ascii.zero)))).
  - reflexivity.
  - intros i Hi. apply in_seq in Hi.
    apply grade_letter_ok; lia.
Qed.

Lemma try_word_short_target (self : Wordle) (w : word) :
  length (target self) < 5 -> length w = 5 -> In w (words_base self) ->
  try_word self w = Raise IndexError.
Proof.
  intros Ht Hw Hin.
  destruct (try_word_cases self w) as [[Hl _]|[[_ [Hn _]]|[_ [_ [H|[r H]]]]]];
    [contradiction | contradiction | exact H |].
  exfalso. unfold try_word in H.
  apply list_in_iff in Hin. rewrite Hw, Hin in H.
  change (assert (5 =? 5) "Word must be 5 letters") with (Ok tt) in H.
  change (assert true "Word not in dictionary") with (Ok tt) in H.
  cbv beta iota delta [bind] in H.
  destruct (mapM (grade_letter (target self) w) (seq 0 5)) as [res|e] eqn:Hm;
    [|discriminate].
  destruct (mapM_Ok_all _ _ _ Hm (length (target self))) as [v Hv].
  { apply in_seq. lia. }
  unfold grade_letter, str_index in Hv.
  destruct (nth_error w (length (target self))); simpl in Hv;
    [|discriminate].
  rewrite (proj2 (nth_error_None (target self) (length (target self))))
    in Hv by lia.
  discriminate.
Qed.

(** X2: [try_word] returns a result exactly when the guess has 5 letters, is
    in the dictionary and the target has at least 5 letters; with a target
    of fewer than 5 letters a guess that passes both assertions raises
    IndexError. *)
Theorem try_word_returns_iff (self : Wordle) (w : word) :
  ((exists r, try_word self w = Ok r) <->
   length w = 5 /\ In w (words_base self) /\ 5 <= length (target self)) /\
  (try_word self w = Raise IndexError <->
   length w = 5 /\ In w (words_base self) /\ length (target self) < 5).
Proof.
  destruct (Nat.eq_dec (length w) 5) as [Hw|Hw].
  2:{ destruct (try_word_cases self w) as [[_ H]|[[Hl _]|[Hl _]]];
        try contradiction.
      split; split.
      - intros [r Hr]. rewrite H in Hr. discriminate.
      - intros [Hl _]. contradiction.
      - intros Hr. rewrite H in Hr. discriminate.
      - intros [Hl _]. contradiction. }
  destruct (try_word_cases self w) as [[Hl _]|[[_ [Hn H]]|[_ [Hin _]]]].
  - contradiction.
  - split; split.
    + intros [r Hr]. rewrite H in Hr. discriminate.
    + intros [_ [Hin _]]. contradiction.
    + intros Hr. rewrite H in Hr. discriminate.
    + intros [_ [Hin _]]. contradiction.
  - destruct (Nat.le_gt_cases 5 (length (target self))) as [Ht|Ht].
    + pose proof (try_word_ok_long self w Ht Hw Hin) as H.
      split; split.
      * intros _. repeat split; assumption.
      * intros _. eexists. exact H.
      * intros Hr. rewrite H in Hr. discriminate.
      * intros [_ [_ Hlt]]. lia.
    + pose proof (try_word_short_target self w Ht Hw Hin) as H.
      split; split.
      * intros [r Hr]. rewrite H in Hr. discriminate.
      * intros [_ [_ Hge]]. lia.
      * intros _. repeat split; assumption.
      * intros _. exact H.
Qed.

Lemma try_word_Ok_inv (self : Wordle) (w : word) (res : record) (win : bool) :
  try_word self w = Ok (res, win) ->
  length w = 5 /\ In w (words_base self) /\ 5 <= length (target self) /\
  res = verdicts (target self) w /\
  win = all (map (fun l => snd l =? 2) (verdicts (target self) w)).
Proof.
  intros H.
  destruct (try_word_cases self w) as [[_ E]|[[_ [_ E]]|[Hw [Hin _]]]];
    try (rewrite E in H; discriminate).
  destruct (Nat.le_gt_cases 5 (length (target self))) as [Ht|Ht].
  - rewrite (try_word_ok_long self w Ht Hw Hin) in H.
    injection H as <- <-. repeat split; assumption.
  - rewrite (try_word_short_target self w Ht Hw Hin) in H. discriminate.
Qed.

Lemma verdicts_letters (tgt w : word) :
  length w = 5 -> map fst (verdicts tgt w) = w.
Proof.
  intros H.
  destruct w as [|a [|b [|c [|d [|e [|f w]]]]]]; try discriminate.
  reflexivity.
Qed.

(** X3: in a record that [try_word] returns the letters spell the guess,
    every status is 0, 1 or 2, and a letter is marked 0 (No Match) exactly
    when it does not occur in the target. *)
Theorem try_word_record (self : Wordle) (w : word) (res : record)
    (win : bool) (H : try_word self w = Ok (res, win)) :
  map fst res = w /\
  forall c s, In (c, s) res ->
    s <= 2 /\ (s = NoMatch <-> ~ In c (target self)).
Proof.
  destruct (try_word_Ok_inv self w res win H) as [Hw [Hin [Ht [-> _]]]].
  split; [apply verdicts_letters; exact Hw|].
  intros c s Hcs. unfold verdicts in Hcs.
  apply in_map_iff in Hcs. destruct Hcs as [i [E Hi]].
  apply in_seq in Hi. injection E as <- <-.
  unfold status, NoMatch.
  destruct (Ascii.eqb_spec (nth i w Ascii.zero) (nth i (target self) Ascii.zero))
    as [E|E].
  - split; [lia|]. split; [discriminate|].
    intros Hn. exfalso. apply Hn. rewrite E. apply nth_In. lia.
  - destruct (str_in (nth i w Ascii.zero) (target self)) eqn:Hs.
    + apply str_in_iff in Hs. split; [lia|].
      split; [discriminate | contradiction].
    + apply str_in_false_iff in Hs. split; [lia|].
      split; [intros _; exact Hs | reflexivity].
Qed.

Lemma try_word_record_witness :
  map fst crank_record = str "crank" /\
  forall c s, In (c, s) crank_record ->
    s <= 2 /\ (s = NoMatch <-> ~ In c (target whack_game)).
Proof.
  apply (try_word_record whack_game (str "crank") crank_record false).
  reflexivity.
Defined.

(** X4: against a target of at least 5 letters, a 5-letter guess of the
    dictionary wins exactly when it spells the first five letters of the
    target: a longer target is won by its 5-letter prefix. *)
Theorem try_word_win_prefix (self : Wordle) (w : word)
    (Ht : 5 <= length (target self)) (Hw : length w = 5)
    (Hin : In w (words_base self)) :
  exists res win,
    try_word self w = Ok (res, win) /\
    (win = true <-> w = firstn 5 (target self)).
Proof.
  exists (verdicts (target self) w),
         (all (map (fun l => snd l =? 2) (verdicts (target self) w))).
  split; [apply try_word_ok_long; assumption|].
  rewrite all_exact_iff. split.
  - intros H.
    apply (nth_ext w (firstn 5 (target self)) Ascii.zero Ascii.zero).
    + rewrite length_firstn. lia.
    + intros n Hn. rewrite nth_firstn.
      destruct (Nat.ltb_spec n 5); [apply H|]; lia.
  - intros E i Hi. rewrite E at 1. rewrite nth_firstn.
    destruct (Nat.ltb_spec i 5); [reflexivity | lia].
Qed.

Lemma try_word_win_prefix_witness :
  exists res win,
    try_word (mkWordle 0 6 [str "whack"; str "whacky"] (str "whacky"))
             (str "whack") = Ok (res, win) /\
    (win = true <-> str "whack" = firstn 5 (str "whacky")).
Proof.
  apply (try_word_win_prefix
           (mkWordle 0 6 [str "whack"; str "whacky"] (str "whacky"))
           (str "whack")).
  - simpl. lia.
  - reflexivity.
  - simpl. left. reflexivity.
Defined.

(** ** The candidate filter: failures, shrinking, composition *)

Lemma excluded_cases (w : word) (i : nat) (t : verdict) :
  (i < length w /\ excluded w (i, t) = Ok (excludedb w (i, t))) \/
  (length w <= i /\ excluded w (i, t) = Raise IndexError).
Proof.
  destruct (Nat.lt_ge_cases i (length w)) as [H|H].
  - left. split; [exact H | apply excluded_ok; exact H].
  - right. split; [exact H|]. unfold excluded, str_index.
    rewrite (proj2 (nth_error_None w i) H). reflexivity.
Qed.

Lemma keep_cases (last_guess : record) (w : word) :
  (length last_guess <= length w /\
   keep last_guess w = Ok (keepb last_guess w)) \/
  (length w < length last_guess /\ keep last_guess w = Raise IndexError).
Proof.
  destruct (Nat.le_gt_cases (length last_guess) (length w)) as [H|H].
  - left. split; [exact H | apply keep_ok; exact H].
  - right. split; [exact H|]. unfold keep.
    destruct (mapM (excluded w) (enumerate last_guess)) as [flags|e] eqn:Hm.
    + exfalso.
      destruct (nth_error last_guess (length w)) as [v|] eqn:Hv.
      2:{ apply nth_error_None in Hv. lia. }
      destruct (mapM_Ok_all _ _ _ Hm (length w, v)) as [b Hb].
      { apply in_enumerate. exact Hv. }
      destruct (excluded_cases w (length w) v) as [[Hlt _]|[_ Hr]];
        [lia | congruence].
    + simpl. f_equal.
      clear H. revert e Hm.
      induction (enumerate last_guess) as [|[i t] l IH]; intros e Hm;
        [discriminate|].
      cbn [mapM] in Hm.
      destruct (excluded_cases w i t) as [[_ Ho]|[_ Hr]].
      * rewrite Ho in Hm. cbn [bind] in Hm.
        destruct (mapM (excluded w) l) as [bs|e'] eqn:Hl; [discriminate|].
        cbn [bind] in Hm. injection Hm as <-. apply IH. reflexivity.
      * rewrite Hr in Hm. cbn [bind] in Hm. congruence.
Qed.

Lemma filter_record_cases (wd : list word) (last_guess : record) :
  (Forall (fun w => length last_guess <= length w) wd /\
   filter_record wd last_guess = Ok (filter (keepb last_guess) wd)) \/
  ((exists w, In w wd /\ length w < length last_guess) /\
   filter_record wd last_guess = Raise IndexError).
Proof.
  unfold filter_record.
  induction wd as [|w wd IH]; simpl.
  - left. split; [constructor | reflexivity].
  - destruct (keep_cases last_guess w) as [[Hle Hk]|[Hlt Hk]]; rewrite Hk;
      simpl.
    + destruct IH as [[Hall Hf]|[[x [Hx Hxl]] Hf]]; rewrite Hf; simpl.
      * left. split; [constructor; assumption | reflexivity].
      * right. split; [|reflexivity]. exists x. split; [right|]; assumption.
    + right. split; [|reflexivity]. exists w. split; [left; reflexivity|].
      exact Hlt.
Qed.

(** X5: the filter raises exactly when a candidate has fewer letters than
    the record has verdicts, and then it raises IndexError; otherwise it
    returns a list. *)
Theorem filter_record_raises_iff (wd : list word) (last_guess : record) :
  (filter_record wd last_guess = Raise IndexError <->
   exists w, In w wd /\ length w < length last_guess) /\
  ((exists wd', filter_record wd last_guess = Ok wd') <->
   Forall (fun w => length last_guess <= length w) wd) /\
  (forall e, filter_record wd last_guess = Raise e -> e = IndexError).
Proof.
  destruct (filter_record_cases wd last_guess) as [[Hall H]|[[w [Hw Hl]] H]];
    rewrite H.
  - split; [|split].
    + split; [discriminate|]. intros [w [Hw Hl]].
      rewrite Forall_forall in Hall. specialize (Hall w Hw). lia.
    + split; [intros _; exact Hall | intros _; eexists; reflexivity].
    + discriminate.
  - split; [|split].
    + split; [intros _; exists w; split; assumption | reflexivity].
    + split; [intros [wd' E]; discriminate|].
      intros Hall. rewrite Forall_forall in Hall. specialize (Hall w Hw). lia.
    + intros e E. congruence.
Qed.

Lemma filter_subseq {A : Type} (q : A -> bool) (l : list A) :
  subseq (filter q l) l.
Proof.
  induction l as [|x l IH]; simpl; [constructor|].
  destruct (q x); constructor; exact IH.
Qed.

Lemma subseq_refl {A : Type} (l : list A) : subseq l l.
Proof. induction l; constructor; assumption. Qed.

Lemma filter_dict_inv (wd wd' : list word) (past : list record) :
  filter_dict wd past = Ok wd' ->
  (past = [] /\ wd' = wd) \/
  (past <> [] /\ wd' = filter (keepb (last past [])) wd /\
   Forall (fun w => length (last past []) <= length w) wd).
Proof.
  unfold filter_dict. destruct past as [|r past].
  - intros H. injection H as <-. left. split; reflexivity.
  - intros H. right. split; [discriminate|].
    destruct (filter_record_cases wd (last (r :: past) []))
      as [[Hall E]|[_ E]]; rewrite E in H; [|discriminate].
    injection H as <-. split; [reflexivity | exact Hall].
Qed.

(** X6: when the filtering step of [next_guess] returns, the new
    [working_dict] is the old one with some words left out, in the same
    order: it never grows, and with no past guess it is unchanged. *)
Theorem filter_dict_shrinks (wd wd' : list word) (past_guesses : list record)
    (H : filter_dict wd past_guesses = Ok wd') :
  subseq wd' wd /\ length wd' <= length wd /\
  (forall w, In w wd' -> In w wd) /\
  (past_guesses = [] -> wd' = wd).
Proof.
  destruct (filter_dict_inv wd wd' past_guesses H) as [[Hp ->]|[Hp [-> _]]].
  - repeat split; try tauto.
    + apply subseq_refl.
    + lia.
  - repeat split.
    + apply filter_subseq.
    + apply filter_length_le.
    + intros w Hw. apply filter_In in Hw. tauto.
    + intros E. contradiction.
Qed.

Lemma filter_dict_shrinks_witness :
  subseq [str "shack"; str "whack"] ack_words /\
  length [str "shack"; str "whack"] <= length ack_words /\
  (forall w, In w [str "shack"; str "whack"] -> In w ack_words) /\
  ([crank_record] = [] -> [str "shack"; str "whack"] = ack_words).
Proof.
  apply (filter_dict_shrinks ack_words [str "shack"; str "whack"]
           [crank_record]).
  reflexivity.
Defined.

Lemma filter_filter_same {A : Type} (q : A -> bool) (l : list A) :
  filter q (filter q l) = filter q l.
Proof.
  induction l as [|x l IH]; simpl; [reflexivity|].
  destruct (q x) eqn:E; simpl; [rewrite E, IH|]; auto.
Qed.

Lemma filter_filter_comm {A : Type} (p q : A -> bool) (l : list A) :
  filter p (filter q l) = filter q (filter p l).
Proof.
  induction l as [|x l IH]; simpl; [reflexivity|].
  destruct (q x) eqn:Eq, (p x) eqn:Ep; simpl; rewrite ?Eq, ?Ep, IH;
    reflexivity.
Qed.

Lemma Forall_filter {A : Type} (P : A -> Prop) (q : A -> bool) (l : list A) :
  Forall P l -> Forall P (filter q l).
Proof.
  rewrite !Forall_forall. intros H x Hx. apply filter_In in Hx.
  apply H, Hx.
Qed.

Lemma filter_record_Ok_inv (wd wd' : list word) (r : record) :
  filter_record wd r = Ok wd' ->
  wd' = filter (keepb r) wd /\ Forall (fun w => length r <= length w) wd.
Proof.
  intros H.
  destruct (filter_record_cases wd r) as [[Hall E]|[_ E]]; rewrite E in H;
    [|discriminate].
  injection H as <-. split; [reflexivity | exact Hall].
Qed.

(** X7: filtering once more by the same record removes nothing more. *)
Theorem filter_record_idempotent (wd wd' : list word) (r : record)
    (H : filter_record wd r = Ok wd') :
  filter_record wd' r = Ok wd'.
Proof.
  destruct (filter_record_Ok_inv wd wd' r H) as [-> Hall].
  rewrite filter_record_ok by (apply Forall_filter; exact Hall).
  rewrite filter_filter_same. reflexivity.
Qed.

Lemma filter_record_idempotent_witness :
  filter_record [str "shack"; str "whack"] crank_record
  = Ok [str "shack"; str "whack"].
Proof.
  apply (filter_record_idempotent ack_words [str "shack"; str "whack"]
           crank_record).
  reflexivity.
Defined.

(** X8: two records of the same length may be applied in either order: the
    candidates left are the same. *)
Theorem filter_record_commutes (wd a b : list word) (r1 r2 : record)
    (Hlen : length r1 = length r2)
    (H1 : filter_record wd r1 = Ok a) (H2 : filter_record a r2 = Ok b) :
  exists a', filter_record wd r2 = Ok a' /\ filter_record a' r1 = Ok b.
Proof.
  destruct (filter_record_Ok_inv wd a r1 H1) as [-> Hall1].
  destruct (filter_record_Ok_inv _ b r2 H2) as [-> _].
  assert (Hall2 : Forall (fun w => length r2 <= length w) wd).
  { rewrite <- Hlen. exact Hall1. }
  exists (filter (keepb r2) wd).
  split; [apply filter_record_ok; exact Hall2|].
  rewrite filter_record_ok by (apply Forall_filter; exact Hall1).
  rewrite filter_filter_comm. reflexivity.
Qed.

Lemma filter_record_commutes_witness :
  exists a',
    filter_record ack_words (verdicts (str "whack") (str "shack")) = Ok a' /\
    filter_record a' crank_record = Ok [str "whack"].
Proof.
  apply (filter_record_commutes ack_words [str "shack"; str "whack"]
           [str "whack"] crank_record
           (verdicts (str "whack") (str "shack"))); reflexivity.
Defined.

Lemma filter_record_mem (wd : list word) (r : record) :
  Forall (fun w => length w = 5) wd -> length r = 5 ->
  exists wd',
    filter_record wd r = Ok wd' /\
    forall w,
      In w wd' <->
      In w wd /\ forall i v, nth_error r i = Some v -> ~ disqualifies w i v.
Proof.
  intros Hwd Hr. exists (filter (keepb r) wd). split.
  - apply filter_record_ok. eapply Forall_impl; [|exact Hwd].
    intros w Hw. cbv beta. rewrite Hr, Hw. apply Nat.le_refl.
  - intros w. rewrite filter_In.
    rewrite Forall_forall in Hwd.
    split; intros [Hin Hk]; (split; [exact Hin|]);
      apply keepb_iff; try exact Hk; rewrite (Hwd w Hin), Hr;
      apply Nat.le_refl.
Qed.

(** X9: the filter steps accumulate: after a game history of 5-verdict
    records, over candidates of 5 letters, a word is left in [working_dict]
    exactly when it was there at the start and no position of any record of
    the history disqualifies it. *)
Theorem filter_turns_keeps (wd : list word) (past history : list record)
    (Hwd : Forall (fun w => length w = 5) wd)
    (Hh : Forall (fun r => length r = 5) history) :
  exists wd',
    filter_turns wd past history = Ok wd' /\
    forall w,
      In w wd' <->
      In w wd /\
      forall r, In r history ->
        forall i v, nth_error r i = Some v -> ~ disqualifies w i v.
Proof.
  revert wd past Hwd.
  induction history as [|r history IH]; intros wd past Hwd; simpl.
  - exists wd. split; [reflexivity|]. intros w. split.
    + intros H. split; [exact H | intros r []].
    + intros [H _]. exact H.
  - inversion Hh as [|r' h' Hr Hh']; subst.
    destruct (filter_record_mem wd r Hwd Hr) as [wd1 [Hf Hk]].
    rewrite filter_dict_snoc, Hf. simpl.
    assert (Hwd1 : Forall (fun w => length w = 5) wd1).
    { rewrite Forall_forall in *. intros w Hw. apply Hwd.
      apply (proj1 (Hk w)). exact Hw. }
    destruct (IH Hh' wd1 (past ++ [r]) Hwd1) as [wd' [Hf' Hk']].
    exists wd'. split; [exact Hf'|].
    intros w. rewrite Hk', Hk. split.
    + intros [[Hin Hr0] Hrest]. split; [exact Hin|].
      intros r0 [<-|Hr1]; [exact Hr0 | exact (Hrest r0 Hr1)].
    + intros [Hin Hall]. split; [split; [exact Hin|]|].
      * apply Hall. left. reflexivity.
      * intros r0 Hr0. apply Hall. right. exact Hr0.
Qed.

Lemma filter_turns_keeps_witness :
  exists wd',
    filter_turns ack_words [] [crank_record] = Ok wd' /\
    forall w,
      In w wd' <->
      In w ack_words /\
      forall r, In r [crank_record] ->
        forall i v, nth_error r i = Some v -> ~ disqualifies w i v.
Proof.
  apply (filter_turns_keeps ack_words [] [crank_record]).
  - repeat constructor.
  - repeat constructor.
Defined.

Lemma excludedb_self (w : word) (i s : nat) :
  i < length w -> s <= 2 ->
  excludedb w (i, (nth i w Ascii.zero, s)) = negb (s =? 2).
Proof.
  intros Hi Hs. unfold excludedb, any. simpl fst. simpl snd.
  assert (Hin : str_in (nth i w Ascii.zero) w = true).
  { apply str_in_iff. apply nth_In. exact Hi. }
  rewrite Hin, Ascii.eqb_refl.
  destruct s as [|[|[|s]]]; [reflexivity | reflexivity | reflexivity | lia].
Qed.

Lemma status_le (tgt : word) (g t : ascii) : status tgt g t <= 2.
Proof.
  unfold status. destruct (Ascii.eqb g t); [lia|].
  destruct (str_in g tgt); lia.
Qed.

(** The record of a guess keeps that very guess exactly when it won. *)
Lemma keepb_self (tgt w : word) :
  length w = 5 ->
  keepb (verdicts tgt w) w = all (map (fun l => snd l =? 2) (verdicts tgt w)).
Proof.
  intros Hw. apply Bool.eq_iff_eq_true. unfold keepb, any, all.
  rewrite negb_true_iff, forallb_forall. split.
  - intros H b Hb. apply in_map_iff in Hb. destruct Hb as [v [<- Hv]].
    destruct (In_nth_error _ _ Hv) as [i Hi].
    assert (Hi5 : i < 5).
    { rewrite <- (verdicts_length tgt w). apply nth_error_Some.
      intros E. unfold verdict in *. congruence. }
    pose proof Hi as Hi'.
    pose proof (verdicts_nth tgt w i Hi5) as Hn. unfold verdict in Hn.
    rewrite Hn in Hi'.
    injection Hi' as <-. simpl snd.
    destruct (status tgt (nth i w Ascii.zero) (nth i tgt Ascii.zero) =? 2)
      eqn:E; [reflexivity|].
    exfalso.
    assert (Ht : existsb (fun b => b)
                   (map (excludedb w) (enumerate (verdicts tgt w))) = true).
    { apply existsb_exists. exists true. split; [|reflexivity].
      apply in_map_iff.
      exists (i, (nth i w Ascii.zero,
                  status tgt (nth i w Ascii.zero) (nth i tgt Ascii.zero))).
      split; [|apply in_enumerate; exact Hi].
      rewrite excludedb_self; [rewrite E; reflexivity | lia | apply status_le]. }
    congruence.
  - intros H.
    destruct (existsb (fun b => b)
                (map (excludedb w) (enumerate (verdicts tgt w)))) eqn:E;
      [|reflexivity].
    exfalso. apply existsb_exists in E. destruct E as [b [Hb ->]].
    apply in_map_iff in Hb. destruct Hb as [[i v] [He Hin]].
    apply in_enumerate in Hin.
    assert (Hi5 : i < 5).
    { rewrite <- (verdicts_length tgt w). apply nth_error_Some.
      intros E. unfold verdict in *. congruence. }
    pose proof Hin as Hin'.
    pose proof (verdicts_nth tgt w i Hi5) as Hn. unfold verdict in Hn, Hin'.
    rewrite Hn in Hin'.
    injection Hin' as <-.
    rewrite excludedb_self in He; [| lia | apply status_le].
    rewrite (H (status tgt (nth i w Ascii.zero) (nth i tgt Ascii.zero) =? 2))
      in He; [discriminate|].
    apply in_map_iff. eexists. split; [|exact (nth_error_In _ _ Hin)].
    reflexivity.
Qed.

Lemma filter_length_lt {A : Type} (q : A -> bool) (l : list A) (x : A) :
  In x l -> q x = false -> length (filter q l) < length l.
Proof.
  induction l as [|y l IH]; intros Hin Hq; [destruct Hin|].
  simpl. destruct Hin as [->|Hin].
  - rewrite Hq. pose proof (filter_length_le q l). lia.
  - specialize (IH Hin Hq). destruct (q y); simpl; lia.
Qed.

(** X10: the record of a guess, fed to the filter over candidates of 5
    letters, keeps that guess exactly when it won: a guess that did not win
    is removed, so a candidate list that held it gets strictly shorter. *)
Theorem guess_filtered_out (self : Wordle) (w : word) (res : record)
    (win : bool) (wd : list word)
    (Hg : try_word self w = Ok (res, win))
    (Hwd : Forall (fun c => length c = 5) wd) :
  exists wd',
    filter_record wd res = Ok wd' /\
    (In w wd' <-> In w wd /\ win = true) /\
    (In w wd -> win = false -> length wd' < length wd).
Proof.
  destruct (try_word_Ok_inv self w res win Hg) as [Hw [_ [_ [-> ->]]]].
  exists (filter (keepb (verdicts (target self) w)) wd).
  split; [|split].
  - apply filter_record_ok. eapply Forall_impl; [|exact Hwd].
    intros c Hc. cbv beta. rewrite verdicts_length, Hc. apply Nat.le_refl.
  - rewrite filter_In, (keepb_self (target self) w Hw). reflexivity.
  - intros Hin Hlose. apply (filter_length_lt _ wd w Hin).
    rewrite (keepb_self (target self) w Hw). exact Hlose.
Qed.

Lemma guess_filtered_out_witness :
  exists wd',
    filter_record whack_words crank_record = Ok wd' /\
    (In (str "crank") wd' <-> In (str "crank") whack_words /\ false = true) /\
    (In (str "crank") whack_words -> false = false ->
     length wd' < length whack_words).
Proof.
  apply (guess_filtered_out whack_game (str "crank") crank_record false
           whack_words).
  - reflexivity.
  - repeat constructor.
Defined.

(** ** Scoring: the empty candidate list and letters outside the alphabet *)

Lemma mapM_raise_uniform {A B : Type} (f : A -> result B) (l : list A)
    (e : exn) :
  (forall x, In x l -> (exists y, f x = Ok y) \/ f x = Raise e) ->
  (exists x, In x l /\ f x = Raise e) ->
  mapM f l = Raise e.
Proof.
  induction l as [|a l IH]; intros Hall [x [Hx Hr]]; [destruct Hx|].
  cbn [mapM].
  destruct (Hall a (or_introl eq_refl)) as [[y Hy]|Ha].
  - rewrite Hy. cbn [bind].
    destruct Hx as [->|Hx]; [congruence|].
    rewrite IH; [reflexivity | | exists x; split; assumption].
    intros z Hz. apply Hall. right. exact Hz.
  - rewrite Ha. reflexivity.
Qed.

Lemma dict_get_map_missing {K V : Type} (eqb : K -> K -> bool) (f : K -> V)
    (keys : list K) (k : K) :
  (forall a b, eqb a b = true <-> a = b) ->
  ~ In k keys -> dict_get eqb (map (fun x => (x, f x)) keys) k = Raise KeyError.
Proof.
  intros Heq. induction keys as [|x keys IH]; intros Hn; simpl;
    [reflexivity|].
  destruct (eqb k x) eqn:E.
  - apply Heq in E. subst. exfalso. apply Hn. left. reflexivity.
  - apply IH. intros H. apply Hn. right. exact H.
Qed.

Lemma freq_score_cases (order : set_order) (wd : list word) (w : word) :
  (Forall (fun c => In c ascii_lowercase) w /\
   freq_score order (char_freq_table wd) w = Ok (freq_score_of order wd w)) \/
  ((exists c, In c w /\ ~ In c ascii_lowercase) /\
   freq_score order (char_freq_table wd) w = Raise KeyError).
Proof.
  destruct (Forall_Exists_dec (fun c => In c ascii_lowercase)
              (fun c => in_dec ascii_dec c ascii_lowercase) w) as [H|H].
  - left. split; [exact H | apply freq_score_ok; exact H].
  - right. apply Exists_exists in H. destruct H as [c [Hc Hn]].
    split; [exists c; split; assumption|].
    unfold freq_score.
    rewrite (mapM_raise_uniform _ (set order w) KeyError); [reflexivity | |].
    + intros x _. destruct (in_dec ascii_dec x ascii_lowercase) as [Hx|Hx].
      * left. eexists. apply char_freq_get. exact Hx.
      * right. unfold char_freq_table.
        apply (dict_get_map_missing Ascii.eqb (freq wd));
          [apply Ascii.eqb_eq | exact Hx].
    + exists c. split; [apply set_In; exact Hc|].
      unfold char_freq_table.
      apply (dict_get_map_missing Ascii.eqb (freq wd));
        [apply Ascii.eqb_eq | exact Hn].
Qed.

(** X11: on a non-empty candidate list, the guess of [FreqFilterBot] raises
    KeyError exactly when some candidate has a letter outside
    [ascii_lowercase], and returns a candidate exactly when every letter of
    every candidate is a lowercase letter. *)
Theorem freq_guess_lowercase (order : set_order) (wd : list word)
    (Hne : wd <> []) :
  (freq_guess order wd = Raise KeyError <->
   exists w c, In w wd /\ In c w /\ ~ In c ascii_lowercase) /\
  ((exists g, freq_guess order wd = Ok g /\ In g wd) <->
   Forall (Forall (fun c => In c ascii_lowercase)) wd).
Proof.
  unfold freq_guess. rewrite (char_freq_ok wd Hne). cbn [bind].
  destruct (Forall_Exists_dec (Forall (fun c => In c ascii_lowercase))
              (fun w => Forall_dec _
                          (fun c => in_dec ascii_dec c ascii_lowercase) w) wd)
    as [H|H].
  - rewrite (mapM_ok _ (fun w => (w, freq_score_of order wd w))).
    2:{ intros w Hw. rewrite freq_score_ok; [reflexivity|].
        rewrite Forall_forall in H. exact (H w Hw). }
    cbn [bind].
    destruct (best_member (freq_score_of order wd) wd Hne) as [g [Hg Hin]].
    rewrite Hg. split; split.
    + discriminate.
    + intros [w [c [Hw [Hc Hn]]]]. exfalso. apply Hn.
      rewrite Forall_forall in H. specialize (H w Hw).
      rewrite Forall_forall in H. exact (H c Hc).
    + intros _. exact H.
    + intros _. exists g. split; [reflexivity | exact Hin].
  - apply Exists_exists in H. destruct H as [w [Hw Hnl]].
    destruct (freq_score_cases order wd w) as [[Hl _]|[[c [Hc Hn]] Hr]];
      [contradiction|].
    rewrite (mapM_raise_uniform _ wd KeyError).
    + cbn [bind]. split; split.
      * intros _. exists w, c. repeat split; assumption.
      * reflexivity.
      * intros [g [Hg _]]. discriminate.
      * intros Hall. rewrite Forall_forall in Hall. exfalso.
        exact (Hnl (Hall w Hw)).
    + intros x _. destruct (freq_score_cases order wd x) as [[_ Ho]|[_ Hx]].
      * left. rewrite Ho. eexists. reflexivity.
      * right. rewrite Hx. reflexivity.
    + exists w. split; [exact Hw|]. rewrite Hr. reflexivity.
Qed.

Lemma freq_guess_lowercase_witness :
  (freq_guess last_seen [str "Hello"] = Raise KeyError <->
   exists w c, In w [str "Hello"] /\ In c w /\ ~ In c ascii_lowercase) /\
  ((exists g, freq_guess last_seen [str "Hello"] = Ok g /\
              In g [str "Hello"]) <->
   Forall (Forall (fun c => In c ascii_lowercase)) [str "Hello"]).
Proof.
  apply (freq_guess_lowercase last_seen [str "Hello"]). discriminate.
Defined.

(** X12: when the filter leaves no candidate, [FreqFilterBot.next_guess] and
    [FreqFilterBot2.next_guess] raise ZeroDivisionError and
    [FilterBot.next_guess] raises IndexError. *)
Theorem next_guess_no_candidate (self : Bot) (past_guesses : list record)
    (H : filter_dict (working_dict self) past_guesses = Ok []) :
  FreqFilterBot_next_guess self past_guesses = Raise ZeroDivisionError /\
  FreqFilterBot2_next_guess self past_guesses = Raise ZeroDivisionError /\
  FilterBot_next_guess self past_guesses = Raise IndexError.
Proof.
  unfold FreqFilterBot_next_guess, FreqFilterBot2_next_guess,
    FilterBot_next_guess.
  rewrite H. cbn [bind]. repeat split.
  unfold choice, random_choice. simpl.
  destruct (draws self (drawn self)); reflexivity.
Qed.

Lemma next_guess_no_candidate_witness :
  FreqFilterBot_next_guess (set_working_dict whack_bot [str "crank"])
    [crank_record] = Raise ZeroDivisionError /\
  FreqFilterBot2_next_guess (set_working_dict whack_bot [str "crank"])
    [crank_record] = Raise ZeroDivisionError /\
  FilterBot_next_guess (set_working_dict whack_bot [str "crank"])
    [crank_record] = Raise IndexError.
Proof.
  apply (next_guess_no_candidate (set_working_dict whack_bot [str "crank"])
           [crank_record]).
  reflexivity.
Defined.

(** ** Whole games against the judge *)

Lemma FilterBot_filtering : filtering_bot FilterBot (fun _ => True).
Proof.
  constructor.
  - intros self. simpl. repeat split.
  - intros self past e H. simpl. unfold FilterBot_next_guess.
    rewrite H. reflexivity.
  - intros self past wd H Hne _ _. simpl. unfold FilterBot_next_guess.
    rewrite H. cbn [bind]. unfold choice. simpl working_dict.
    destruct (random_choice_ok
                (draws (set_working_dict self wd)
                       (drawn (set_working_dict self wd))) wd Hne)
      as [g [Hg Hin]].
    rewrite Hg. cbn [bind]. eexists. eexists.
    split; [reflexivity|]. repeat split. exact Hin.
Qed.

Lemma FreqFilterBot_filtering : filtering_bot FreqFilterBot (fun _ => True).
Proof.
  constructor.
  - intros self. simpl. repeat split.
  - intros self past e H. simpl. unfold FreqFilterBot_next_guess.
    rewrite H. reflexivity.
  - intros self past wd H Hne Hwd _. simpl. unfold FreqFilterBot_next_guess.
    rewrite H. cbn [bind]. simpl working_dict. simpl hash_order.
    rewrite (freq_guess_ok _ wd Hne Hwd).
    destruct (best_member (freq_score_of (hash_order self) wd) wd Hne)
      as [g [Hg Hin]].
    rewrite Hg. cbn [bind]. eexists. eexists.
    split; [reflexivity|]. repeat split. exact Hin.
Qed.

Lemma FreqFilterBot2_filtering :
  filtering_bot FreqFilterBot2
    (fun self => float_lt (float_of_int 0) (pos_wgt self) = true).
Proof.
  constructor.
  - intros self. simpl. repeat split. intros H. exact H.
  - intros self past e H. simpl. unfold FreqFilterBot2_next_guess.
    rewrite H. reflexivity.
  - intros self past wd H Hne Hwd Hwgt. simpl.
    unfold FreqFilterBot2_next_guess.
    rewrite H. cbn [bind]. simpl working_dict. simpl pos_wgt.
    rewrite (pos_guess_ok _ wd Hne Hwd (float_pos_nonzero _ Hwgt)).
    destruct (best_member (pos_score_of wd (pos_wgt self)) wd Hne)
      as [g [Hg Hin]].
    rewrite Hg. cbn [bind]. eexists. eexists.
    split; [reflexivity|]. repeat split; [exact Hin | exact Hwgt].
Qed.

Lemma all_exact_eq (tgt w : word) :
  length w = 5 -> length tgt = 5 ->
  (all (map (fun l => snd l =? 2) (verdicts tgt w)) = true <-> w = tgt).
Proof.
  intros Hw Ht. rewrite all_exact_iff. split.
  - intros H. apply (nth_ext w tgt Ascii.zero Ascii.zero); [congruence|].
    intros n Hn. apply H. lia.
  - intros -> i _. reflexivity.
Qed.

Lemma removelast_snoc {A : Type} (l : list A) (x : A) :
  removelast (l ++ [x]) = l.
Proof. apply removelast_last. Qed.

Section FilteringGame.

Variable bot : Strategist.
Variable ready : Bot -> Prop.
Hypothesis Hbot : filtering_bot bot ready.
Variable game : Wordle.
Hypothesis HD : Forall Word (words_base game).
Hypothesis Ht : In (target game) (words_base game).

Lemma target_length : length (target game) = 5.
Proof. exact (Word_length _ _ HD Ht). Qed.

(** The filtering step of a turn keeps the target and drops every guess
    made so far. *)
Lemma filter_step_inv (wd : list word) (gs : list word) :
  Forall Word wd ->
  (forall w, In w wd -> In w (words_base game)) ->
  In (target game) wd ->
  Forall (fun g => length g = 5 /\ In g (words_base game)) gs ->
  ~ In (target game) gs ->
  (forall g, In g (removelast gs) -> ~ In g wd) ->
  exists wd',
    filter_dict wd (map (verdicts (target game)) gs) = Ok wd' /\
    Forall Word wd' /\
    (forall w, In w wd' -> In w (words_base game)) /\
    In (target game) wd' /\
    (forall g, In g gs -> ~ In g wd').
Proof.
  intros Hwd Hsub Hin Hgs Hnt Hold.
  destruct (list_eq_dec (list_eq_dec ascii_dec) gs []) as [->|Hgne];
    [|destruct (exists_last Hgne) as [gs0 [gl ->]]].
  - exists wd. simpl. repeat split; try assumption; try (intros g []).
  - rewrite map_app. simpl map. rewrite filter_dict_snoc.
    rewrite removelast_snoc in Hold.
    assert (Hgl : length gl = 5 /\ gl <> target game).
    { rewrite Forall_forall in Hgs. split.
      - apply Hgs. apply in_or_app. right. left. reflexivity.
      - intros E. apply Hnt. apply in_or_app. right. left. exact E. }
    destruct Hgl as [Hgl5 Hglt].
    exists (filter (keepb (verdicts (target game) gl)) wd).
    split; [|split; [|split; [|split]]].
    + apply filter_record_ok. rewrite Forall_forall. intros w Hw.
      rewrite verdicts_length, (Word_length wd w Hwd Hw). apply Nat.le_refl.
    + apply Forall_filter. exact Hwd.
    + intros w Hw. apply filter_In in Hw. apply Hsub, Hw.
    + apply filter_In. split; [exact Hin | apply keepb_target].
    + intros g Hg Hg'. apply filter_In in Hg'. destruct Hg' as [Hgw Hk].
      apply in_app_or in Hg. destruct Hg as [Hg|[<-|[]]].
      * exact (Hold g Hg Hgw).
      * rewrite (keepb_self (target game) gl Hgl5) in Hk.
        apply (all_exact_eq (target game) gl Hgl5 target_length) in Hk.
        contradiction.
Qed.

Lemma filtering_loop (fuel : nat) :
  forall (self : Bot) (gs : list word),
    length gs < 6 -> 6 - length gs <= fuel -> ready self ->
    Forall Word (working_dict self) ->
    (forall w, In w (working_dict self) -> In w (words_base game)) ->
    In (target game) (working_dict self) ->
    NoDup gs ->
    Forall (fun g => length g = 5 /\ In g (words_base game)) gs ->
    ~ In (target game) gs ->
    (forall g, In g (removelast gs) -> ~ In g (working_dict self)) ->
    exists (gs' : list word) (win : bool),
      play_loop bot (try_word game) fuel self (length gs)
                (map (verdicts (target game)) gs)
      = Some (Ok (win, (if win then length gs' else 7),
                  map (verdicts (target game)) gs')) /\
      NoDup gs' /\ game_trace game gs' win.
Proof.
  induction fuel as [|fuel IH];
    intros self gs Hlt Hfuel Hready Hwd Hsub Hin Hnd Hgs Hnt Hold.
  - lia.
  - destruct (filter_step_inv (working_dict self) gs Hwd Hsub Hin Hgs Hnt Hold)
      as [wd' [Hf [Hwd' [Hsub' [Hin' Hnew]]]]].
    assert (Hne : wd' <> []) by (intros E; rewrite E in Hin'; destruct Hin').
    destruct (fb_pick bot ready Hbot self _ wd' Hf Hne Hwd' Hready)
      as [g [self' [Hnext [Hg [Hwd'' [_ Hready']]]]]].
    assert (Hg5 : length g = 5) by exact (Word_length wd' g Hwd' Hg).
    assert (HgD : In g (words_base game)) by exact (Hsub' g Hg).
    assert (Hgn : ~ In g gs) by (intros E; exact (Hnew g E Hg)).
    pose proof (try_word_ok game g target_length Hg5 HgD) as Hj.
    assert (Hnd' : NoDup (gs ++ [g])).
    { apply NoDup_app; [exact Hnd | repeat constructor; intros [] |].
      intros x Hx [<-|[]]. exact (Hgn Hx). }
    assert (Hgs' : Forall (fun g => length g = 5 /\ In g (words_base game))
                          (gs ++ [g])).
    { apply Forall_app. split; [exact Hgs|]. repeat constructor; assumption. }
    assert (Hlen : length (gs ++ [g]) = length gs + 1).
    { rewrite length_app. reflexivity. }
    cbn [play_loop]. rewrite Hnext, Hj. cbn [fst snd].
    destruct (all (map (fun l => snd l =? 2) (verdicts (target game) g)))
      eqn:Hwin.
    + apply (all_exact_eq (target game) g Hg5 target_length) in Hwin.
      exists (gs ++ [g]), true.
      split; [rewrite Hlen, map_app; reflexivity|].
      split; [exact Hnd'|].
      unfold game_trace. rewrite Hlen, last_last, removelast_snoc.
      repeat split; try lia; try assumption; discriminate.
    + assert (Hgt : g <> target game).
      { intros E.
        apply (all_exact_eq (target game) g Hg5 target_length) in E.
        congruence. }
      assert (Hnt' : ~ In (target game) (gs ++ [g])).
      { intros E. apply in_app_or in E. destruct E as [E|[E|[]]];
          [exact (Hnt E) | exact (Hgt E)]. }
      unfold bot_max_guesses.
      destruct (Nat.eqb_spec (length gs + 1) 6) as [E|E].
      * exists (gs ++ [g]), false.
        split; [rewrite E, map_app; reflexivity|].
        split; [exact Hnd'|].
        unfold game_trace. rewrite Hlen.
        repeat split; try lia; try assumption; discriminate.
      * rewrite <- Hlen.
        replace (map (verdicts (target game)) gs ++ [verdicts (target game) g])
          with (map (verdicts (target game)) (gs ++ [g]))
          by (rewrite map_app; reflexivity).
        apply IH; try assumption; try lia.
        -- rewrite Hwd''. exact Hwd'.
        -- rewrite Hwd''. exact Hsub'.
        -- rewrite Hwd''. exact Hin'.
        -- rewrite removelast_snoc, Hwd''. exact Hnew.
Qed.

(** A whole game of a filtering bot whose dictionary is that of the judge. *)
Lemma filtering_game (self : Bot) (fuel : nat) :
  bot_words_base self = words_base game -> ready self -> 6 <= fuel ->
  exists (gs : list word) (win : bool),
    play_game bot (try_word game) fuel self
    = Some (Ok (win, (if win then length gs else 7),
                map (verdicts (target game)) gs)) /\
    NoDup gs /\ game_trace game gs win.
Proof.
  intros HB Hready Hfuel. unfold play_game.
  destruct (fb_reset bot ready Hbot self) as [Hwd [_ Hr]].
  apply (filtering_loop fuel (reset_state self) []);
    try (simpl; lia); try rewrite Hwd, HB; try assumption.
  - apply Hr. exact Hready.
  - intros w Hw. exact Hw.
  - constructor.
  - constructor.
Qed.

End FilteringGame.

Lemma filtering_bots_ready (bot : Strategist) (self : Bot) :
  In bot filtering_bots ->
  (bot = FreqFilterBot2 ->
   float_lt (float_of_int 0) (pos_wgt self) = true) ->
  exists ready, filtering_bot bot ready /\ ready self.
Proof.
  intros [<-|[<-|[<-|[]]]] Hw.
  - exists (fun _ => True). split; [exact FilterBot_filtering | exact I].
  - exists (fun _ => True). split; [exact FreqFilterBot_filtering | exact I].
  - exists (fun self => float_lt (float_of_int 0) (pos_wgt self) = true).
    split; [exact FreqFilterBot2_filtering | exact (Hw eq_refl)].
Qed.

(** X13: a game of [FilterBot], [FreqFilterBot] or [FreqFilterBot2] (with a
    positive weight) against a judge with the same dictionary of Words never
    raises: [play_game] returns a report; its history is the grading of the
    guesses made, which are words of the dictionary, no word guessed twice;
    a won game ends on the target as its last guess, with the number of
    guesses as guess count; a lost game has six guesses, none of them the
    target, and the guess count 7. *)
Theorem filtering_game_report (bot : Strategist) (game : Wordle) (self : Bot)
    (fuel : nat)
    (Hbot : In bot filtering_bots)
    (Hwgt : bot = FreqFilterBot2 ->
            float_lt (float_of_int 0) (pos_wgt self) = true)
    (HD : Forall Word (words_base game))
    (Ht : In (target game) (words_base game))
    (HB : bot_words_base self = words_base game)
    (Hfuel : 6 <= fuel) :
  exists (gs : list word) (win : bool),
    play_game bot (try_word game) fuel self
    = Some (Ok (win, (if win then length gs else 7),
                map (verdicts (target game)) gs)) /\
    NoDup gs /\ game_trace game gs win.
Proof.
  destruct (filtering_bots_ready bot self Hbot Hwgt) as [ready [Hfb Hr]].
  exact (filtering_game bot ready Hfb game HD Ht self fuel HB Hr Hfuel).
Qed.

Lemma filtering_game_report_witness :
  exists (gs : list word) (win : bool),
    play_game FreqFilterBot2 (try_word ack_game) 6 ack_bot
    = Some (Ok (win, (if win then length gs else 7),
                map (verdicts (target ack_game)) gs)) /\
    NoDup gs /\ game_trace ack_game gs win.
Proof.
  apply (filtering_game_report FreqFilterBot2 ack_game ack_bot 6).
  - simpl. tauto.
  - intros _. reflexivity.
  - apply Wordb_Word. reflexivity.
  - simpl. tauto.
  - reflexivity.
  - lia.
Defined.

(** X14: such a game makes at most as many guesses as the dictionary has
    words, so on a dictionary of at most six words the filtering bots always
    win. *)
Theorem filtering_game_bound (bot : Strategist) (game : Wordle) (self : Bot)
    (fuel : nat)
    (Hbot : In bot filtering_bots)
    (Hwgt : bot = FreqFilterBot2 ->
            float_lt (float_of_int 0) (pos_wgt self) = true)
    (HD : Forall Word (words_base game))
    (Ht : In (target game) (words_base game))
    (HB : bot_words_base self = words_base game)
    (Hfuel : 6 <= fuel) :
  exists win guess_ct past_guesses,
    play_game bot (try_word game) fuel self
    = Some (Ok (win, guess_ct, past_guesses)) /\
    length past_guesses <= length (words_base game) /\
    (win = false -> 7 <= length (words_base game)) /\
    (length (words_base game) <= 6 -> win = true).
Proof.
  destruct (filtering_bots_ready bot self Hbot Hwgt) as [ready [Hfb Hr]].
  destruct (filtering_game bot ready Hfb game HD Ht self fuel HB Hr Hfuel)
    as [gs [win [Hp [Hnd [Hlen [Hgs [Hwon Hlost]]]]]]].
  exists win, (if win then length gs else 7),
         (map (verdicts (target game)) gs).
  split; [exact Hp|].
  assert (Hincl : incl gs (words_base game)).
  { intros g Hg. rewrite Forall_forall in Hgs. exact (proj2 (Hgs g Hg)). }
  assert (Hseven : win = false -> 7 <= length (words_base game)).
  { intros Hw. destruct (Hlost Hw) as [H6 Hn].
    assert (Hnd' : NoDup (target game :: gs)) by (constructor; assumption).
    assert (Hincl' : incl (target game :: gs) (words_base game)).
    { intros g [<-|Hg]; [exact Ht | exact (Hincl g Hg)]. }
    pose proof (NoDup_incl_length Hnd' Hincl') as Hle.
    simpl in Hle. lia. }
  split; [|split].
  - rewrite length_map. exact (NoDup_incl_length Hnd Hincl).
  - exact Hseven.
  - intros Hsmall. destruct win; [reflexivity|].
    specialize (Hseven eq_refl). lia.
Qed.

Lemma filtering_game_bound_witness :
  exists win guess_ct past_guesses,
    play_game FilterBot (try_word ack_game) 6 ack_bot
    = Some (Ok (win, guess_ct, past_guesses)) /\
    length past_guesses <= length (words_base ack_game) /\
    (win = false -> 7 <= length (words_base ack_game)) /\
    (length (words_base ack_game) <= 6 -> win = true).
Proof.
  apply (filtering_game_bound FilterBot ack_game ack_bot 6).
  - simpl. tauto.
  - intros _. reflexivity.
  - apply Wordb_Word. reflexivity.
  - simpl. tauto.
  - reflexivity.
  - lia.
Defined.

Section AnyBotGame.

Variable bot : Strategist.
Variable game : Wordle.
Hypothesis Ht : length (target game) = 5.

Lemma play_loop_trace (fuel : nat) :
  forall (self : Bot) (gs : list word) (win : bool) (guess_ct : nat)
         (past : list record),
    length gs < 6 ->
    Forall (fun g => length g = 5 /\ In g (words_base game)) gs ->
    ~ In (target game) gs ->
    play_loop bot (try_word game) fuel self (length gs)
              (map (verdicts (target game)) gs)
    = Some (Ok (win, guess_ct, past)) ->
    exists gs',
      past = map (verdicts (target game)) gs' /\
      guess_ct = (if win then length gs' else 7) /\
      game_trace game gs' win.
Proof.
  induction fuel as [|fuel IH]; intros self gs win ct past Hlt Hgs Hnt H;
    [discriminate|].
  cbn [play_loop] in H.
  destruct (next_guess self (map (verdicts (target game)) gs))
    as [[g self']|e]; [|discriminate].
  destruct (try_word game g) as [[res win']|e] eqn:Hj; [|discriminate].
  destruct (try_word_Ok_inv game g res win' Hj) as [Hg5 [HgD [_ [-> Hw]]]].
  cbn [fst snd] in H.
  assert (Hgs' : Forall (fun g => length g = 5 /\ In g (words_base game))
                        (gs ++ [g])).
  { apply Forall_app. split; [exact Hgs|]. repeat constructor; assumption. }
  assert (Hlen : length (gs ++ [g]) = length gs + 1).
  { rewrite length_app. reflexivity. }
  assert (Hmap : map (verdicts (target game)) gs ++ [verdicts (target game) g]
                 = map (verdicts (target game)) (gs ++ [g])).
  { rewrite map_app. reflexivity. }
  destruct win'.
  - symmetry in Hw. apply (all_exact_eq (target game) g Hg5 Ht) in Hw.
    injection H as <- <- <-. exists (gs ++ [g]).
    split; [exact Hmap|]. split; [exact (eq_sym Hlen)|].
    unfold game_trace. rewrite Hlen, last_last, removelast_snoc.
    repeat split; try lia; try assumption; discriminate.
  - assert (Hgt : g <> target game).
    { intros E. apply (all_exact_eq (target game) g Hg5 Ht) in E.
      congruence. }
    assert (Hnt' : ~ In (target game) (gs ++ [g])).
    { intros E. apply in_app_or in E. destruct E as [E|[E|[]]];
        [exact (Hnt E) | exact (Hgt E)]. }
    unfold bot_max_guesses in H.
    destruct (Nat.eqb_spec (length gs + 1) 6) as [E|E].
    + injection H as <- <- <-. exists (gs ++ [g]).
      split; [exact Hmap|]. split; [lia|].
      unfold game_trace. rewrite Hlen.
      repeat split; try lia; try assumption; discriminate.
    + rewrite <- Hlen, Hmap in H.
      apply (IH self' (gs ++ [g]) win ct past); try assumption. lia.
Qed.

End AnyBotGame.

(** X15: whatever the bot, when a game against a judge with a 5-letter
    target is reported, its history is the grading of between one and six
    5-letter dictionary words; it is reported won exactly when the last of
    them is the target, no earlier guess being the target, and lost when six
    guesses were made, none of them the target. *)
Theorem play_game_trace (bot : Strategist) (game : Wordle) (self : Bot)
    (fuel : nat) (win : bool) (guess_ct : nat) (past_guesses : list record)
    (Ht : length (target game) = 5)
    (H : play_game bot (try_word game) fuel self
         = Some (Ok (win, guess_ct, past_guesses))) :
  exists gs,
    past_guesses = map (verdicts (target game)) gs /\
    guess_ct = (if win then length gs else 7) /\
    game_trace game gs win.
Proof.
  unfold play_game in H.
  apply (play_loop_trace bot game Ht fuel (reset_state self) []);
    [simpl; lia | constructor | intros [] | exact H].
Qed.

Lemma play_game_trace_witness :
  exists gs,
    repeat crank_record 6 = map (verdicts (target whack_game)) gs /\
    7 = (if false then length gs else 7) /\
    game_trace whack_game gs false.
Proof.
  apply (play_game_trace WordleBotBase whack_game whack_bot 6 false 7
           (repeat crank_record 6)).
  - reflexivity.
  - vm_compute. reflexivity.
Defined.

Section RandomGame.

Variable game : Wordle.
Hypothesis HD : Forall (fun w => length w = 5) (words_base game).
Hypothesis Hne : words_base game <> [].
Hypothesis Ht : 5 <= length (target game).

Lemma random_loop (fuel : nat) :
  forall (self : Bot) (guess_ct : nat) (past : list record),
    bot_words_base self = words_base game ->
    guess_ct = length past -> guess_ct < 6 -> 6 - guess_ct <= fuel ->
    exists o,
      play_loop WordleBotBase (try_word game) fuel self guess_ct past
      = Some (Ok o) /\ well_reported o.
Proof.
  induction fuel as [|fuel IH]; intros self ct past HB Hct Hlt Hfuel; [lia|].
  cbn [play_loop]. simpl next_guess.
  unfold WordleBotBase_next_guess, choice. rewrite HB.
  destruct (random_choice_ok (draws self (drawn self)) (words_base game) Hne)
    as [g [Hg Hin]].
  rewrite Hg. cbn [bind].
  assert (Hg5 : length g = 5).
  { rewrite Forall_forall in HD. exact (HD g Hin). }
  rewrite (try_word_ok_long game g Ht Hg5 Hin). cbn [fst snd].
  assert (Hlen : length (past ++ [verdicts (target game) g]) = ct + 1).
  { rewrite length_app. simpl. lia. }
  destruct (all (map (fun l => snd l =? 2) (verdicts (target game) g))).
  - eexists. split; [reflexivity|]. unfold well_reported.
    rewrite Hlen. repeat split; intros; try lia; discriminate.
  - unfold bot_max_guesses.
    destruct (Nat.eqb_spec (ct + 1) 6) as [E|E].
    + eexists. split; [reflexivity|]. unfold well_reported.
      rewrite Hlen. repeat split; intros; try lia; discriminate.
    + apply IH; try lia. simpl. reflexivity.
Qed.

End RandomGame.

(** X16: a game of the random [WordleBotBase] never raises when the
    dictionary it shares with the judge is a non-empty list of 5-letter
    words and the target has at least 5 letters: [play_game] returns a
    report. *)
Theorem random_game_report (game : Wordle) (self : Bot) (fuel : nat)
    (HD : Forall (fun w => length w = 5) (words_base game))
    (Hne : words_base game <> [])
    (Ht : 5 <= length (target game))
    (HB : bot_words_base self = words_base game)
    (Hfuel : 6 <= fuel) :
  exists o,
    play_game WordleBotBase (try_word game) fuel self = Some (Ok o) /\
    well_reported o.
Proof.
  unfold play_game.
  apply (random_loop game HD Hne Ht fuel); try (simpl; lia). exact HB.
Qed.

Lemma random_game_report_witness :
  exists o,
    play_game WordleBotBase (try_word whack_game) 6 whack_bot = Some (Ok o) /\
    well_reported o.
Proof.
  apply (random_game_report whack_game whack_bot 6).
  - repeat constructor.
  - discriminate.
  - simpl. lia.
  - reflexivity.
  - lia.
Defined.

(** ** [test_bot]: the histogram and the rates *)

Lemma dict_get_set_same (d : dict nat nat) (k v : nat) :
  dict_get Nat.eqb (dict_set Nat.eqb d k v) k = Ok v.
Proof.
  induction d as [|[k' v'] d IH]; simpl.
  - rewrite Nat.eqb_refl. reflexivity.
  - destruct (Nat.eqb_spec k k') as [->|E]; simpl.
    + rewrite Nat.eqb_refl. reflexivity.
    + destruct (Nat.eqb_spec k k'); [contradiction | exact IH].
Qed.

Lemma dict_get_set_other (d : dict nat nat) (k k0 v : nat) :
  k0 <> k ->
  dict_get Nat.eqb (dict_set Nat.eqb d k v) k0 = dict_get Nat.eqb d k0.
Proof.
  intros Hne. induction d as [|[k' v'] d IH]; simpl.
  - destruct (Nat.eqb_spec k0 k); [contradiction | reflexivity].
  - destruct (Nat.eqb_spec k k') as [->|E]; simpl.
    + destruct (Nat.eqb_spec k0 k'); [contradiction | reflexivity].
    + destruct (Nat.eqb_spec k0 k'); [reflexivity | exact IH].
Qed.

Lemma dict_set_keys (d : dict nat nat) (k v : nat) :
  map fst (dict_set Nat.eqb d k v)
  = if existsb (Nat.eqb k) (map fst d) then map fst d else map fst d ++ [k].
Proof.
  induction d as [|[k' v'] d IH]; simpl; [reflexivity|].
  destruct (Nat.eqb_spec k k') as [->|E]; simpl; [reflexivity|].
  rewrite IH. destruct (existsb (Nat.eqb k) (map fst d)); reflexivity.
Qed.

Lemma count_guesses_fold (rs : list game_result) :
  count_guesses rs = fold_left count_step rs [].
Proof. reflexivity. Qed.

Lemma get_default_step (d : dict nat nat) (r : game_result) (k : nat) :
  dict_get_default Nat.eqb (count_step d r) k 0
  = dict_get_default Nat.eqb d k 0 + (if gr_guesses r =? k then 1 else 0).
Proof.
  unfold count_step, dict_get_default.
  destruct (Nat.eqb_spec (gr_guesses r) k) as [->|E].
  - rewrite dict_get_set_same. reflexivity.
  - rewrite dict_get_set_other by congruence. lia.
Qed.

Lemma get_default_fold (rs : list game_result) (d : dict nat nat) (k : nat) :
  dict_get_default Nat.eqb (fold_left count_step rs d) k 0
  = dict_get_default Nat.eqb d k 0 + games_with k rs.
Proof.
  revert d. induction rs as [|r rs IH]; intros d; simpl.
  - unfold games_with. simpl. lia.
  - rewrite IH, get_default_step. unfold games_with. simpl.
    destruct (gr_guesses r =? k); simpl; lia.
Qed.

Lemma keys_step_nodup (d : dict nat nat) (r : game_result) :
  NoDup (map fst d) -> NoDup (map fst (count_step d r)).
Proof.
  intros H. unfold count_step. rewrite dict_set_keys.
  destruct (existsb (Nat.eqb (gr_guesses r)) (map fst d)) eqn:E; [exact H|].
  apply NoDup_app; [exact H | repeat constructor; intros [] |].
  intros x Hx [<-|[]].
  assert (existsb (Nat.eqb (gr_guesses r)) (map fst d) = true).
  { apply existsb_exists. exists (gr_guesses r).
    split; [exact Hx | apply Nat.eqb_refl]. }
  congruence.
Qed.

Lemma keys_fold_nodup (rs : list game_result) (d : dict nat nat) :
  NoDup (map fst d) -> NoDup (map fst (fold_left count_step rs d)).
Proof.
  revert d. induction rs as [|r rs IH]; intros d H; simpl; [exact H|].
  apply IH, keys_step_nodup, H.
Qed.

Lemma dict_set_values (d : dict nat nat) (k : nat) :
  list_sum (values (dict_set Nat.eqb d k
                             (dict_get_default Nat.eqb d k 0 + 1)))
  = list_sum (values d) + 1.
Proof.
  unfold values, dict_get_default.
  induction d as [|[k' v'] d IH]; simpl; [reflexivity|].
  destruct (Nat.eqb_spec k k') as [->|E]; simpl; [lia|].
  rewrite IH. lia.
Qed.

Lemma values_fold (rs : list game_result) (d : dict nat nat) :
  list_sum (values (fold_left count_step rs d))
  = list_sum (values d) + length rs.
Proof.
  revert d. induction rs as [|r rs IH]; intros d; simpl; [lia|].
  rewrite IH. unfold count_step. rewrite dict_set_values. lia.
Qed.

Lemma weighted_step (d : dict nat nat) (k : nat) :
  weighted_sum (dict_set Nat.eqb d k (dict_get_default Nat.eqb d k 0 + 1))
  = weighted_sum d + (if k =? 7 then 0 else k).
Proof.
  unfold weighted_sum, dict_get_default.
  induction d as [|[k' v'] d IH]; simpl.
  - destruct (k =? 7); simpl; lia.
  - destruct (Nat.eqb_spec k k') as [->|E]; simpl.
    + destruct (k' =? 7); simpl; lia.
    + destruct (k' =? 7); simpl; rewrite IH; lia.
Qed.

Lemma weighted_fold (rs : list game_result) (d : dict nat nat) :
  weighted_sum (fold_left count_step rs d)
  = weighted_sum d
    + list_sum (map (fun r => if gr_guesses r =? 7 then 0 else gr_guesses r)
                    rs).
Proof.
  revert d. induction rs as [|r rs IH]; intros d; simpl; [lia|].
  rewrite IH. unfold count_step. rewrite weighted_step. lia.
Qed.

(** Among played games, the guesses that are not 7 are those of the wins. *)
Lemma weighted_played (rs : list game_result) :
  Forall played rs ->
  list_sum (map (fun r => if gr_guesses r =? 7 then 0 else gr_guesses r) rs)
  = won_guesses rs /\
  win_count rs <= won_guesses rs <= 6 * win_count rs /\
  win_count rs <= length rs.
Proof.
  unfold won_guesses, win_count.
  induction 1 as [|r rs Hr _ IH]; simpl; [lia|].
  destruct IH as [IH1 [IH2 IH3]].
  destruct Hr as [[Hw Hg]|[Hw Hg]]; rewrite Hw; simpl.
  - destruct (Nat.eqb_spec (gr_guesses r) 7); lia.
  - rewrite Hg. simpl. lia.
Qed.

(** X17: the histogram loop of [test_bot] counts the games by number of
    guesses: [guess_cts.get(k, 0)] is the number of games that took [k]
    guesses, no key is entered twice, and the counts add up to the number of
    games. *)
Theorem count_guesses_histogram (bot_results : list game_result) :
  (forall k,
      dict_get_default Nat.eqb (count_guesses bot_results) k 0
      = games_with k bot_results) /\
  NoDup (map fst (count_guesses bot_results)) /\
  list_sum (values (count_guesses bot_results)) = length bot_results.
Proof.
  rewrite count_guesses_fold. split; [|split].
  - intros k. rewrite get_default_fold. reflexivity.
  - apply keys_fold_nodup. constructor.
  - rewrite values_fold. reflexivity.
Qed.

Lemma Qnat_le (a b : nat) : a <= b -> (Qnat a <= Qnat b)%Q.
Proof.
  intros H. unfold Qnat. rewrite <- Zle_Qle. lia.
Qed.

Lemma Qnat_pos (n : nat) : n <> 0 -> (0 < Qnat n)%Q.
Proof.
  intros H. unfold Qnat. change 0%Q with (inject_Z 0).
  rewrite <- Zlt_Qlt. lia.
Qed.

Lemma Qnat_mult (a b : nat) : (Qnat (a * b) == Qnat a * Qnat b)%Q.
Proof.
  unfold Qnat. rewrite Nat2Z.inj_mul, inject_Z_mult. reflexivity.
Qed.

Lemma Qnat_ratio_bounds (a b lo hi : nat) :
  b <> 0 -> lo * b <= a -> a <= hi * b ->
  (Qnat lo <= Qnat a / Qnat b)%Q /\ (Qnat a / Qnat b <= Qnat hi)%Q.
Proof.
  intros Hb Hlo Hhi. pose proof (Qnat_pos b Hb) as Hpos. split.
  - apply Qle_shift_div_l; [exact Hpos|].
    rewrite <- Qnat_mult. apply Qnat_le. exact Hlo.
  - apply Qle_shift_div_r; [exact Hpos|].
    rewrite <- Qnat_mult. apply Qnat_le. exact Hhi.
Qed.

Lemma summarize_unfold (run_ct : nat) (rs : list game_result) :
  summarize run_ct rs
  = (win_rate <- true_div (Qnat (win_count rs)) (Qnat (length rs)) ;;
     avg_guesses <- true_div (Qnat (weighted_sum (count_guesses rs)))
                             (Qnat (win_count rs)) ;;
     Ok (mkTestResults run_ct win_rate avg_guesses (count_guesses rs))).
Proof. reflexivity. Qed.

Lemma true_div_zero (a : Q) : true_div a (Qnat 0) = Raise ZeroDivisionError.
Proof. reflexivity. Qed.

(** X18: the summary of [test_bot] over played games raises
    ZeroDivisionError when no game was won (in particular when no game was
    run); otherwise it holds the number of runs, the share of won games,
    which is above 0 and at most 1, and the guesses of the won games over
    their number, which is between 1 and 6. *)
Theorem summarize_report (run_ct : nat) (bot_results : list game_result)
    (Hplayed : Forall played bot_results) :
  (win_count bot_results = 0 ->
   summarize run_ct bot_results = Raise ZeroDivisionError) /\
  (win_count bot_results <> 0 ->
   exists tr,
     summarize run_ct bot_results = Ok tr /\
     run_count tr = run_ct /\
     guess_counts tr = count_guesses bot_results /\
     win_rate tr
     = (Qnat (win_count bot_results) / Qnat (length bot_results))%Q /\
     avg_guesses tr
     = (Qnat (won_guesses bot_results) / Qnat (win_count bot_results))%Q /\
     (0 < win_rate tr)%Q /\ (win_rate tr <= 1)%Q /\
     (1 <= avg_guesses tr)%Q /\ (avg_guesses tr <= 6)%Q).
Proof.
  destruct (weighted_played bot_results Hplayed) as [Hsum [Hbounds Hle]].
  assert (Hw : weighted_sum (count_guesses bot_results)
               = won_guesses bot_results).
  { rewrite count_guesses_fold, weighted_fold. exact Hsum. }
  rewrite summarize_unfold, Hw. split.
  - intros H0. rewrite H0.
    destruct (Nat.eq_dec (length bot_results) 0) as [E|E].
    + rewrite E. reflexivity.
    + rewrite (true_div_nat_ok _ _ E). cbn [bind].
      rewrite true_div_zero. reflexivity.
  - intros Hne.
    assert (Hlen : length bot_results <> 0) by lia.
    rewrite (true_div_nat_ok _ _ Hlen). cbn [bind].
    rewrite (true_div_nat_ok _ _ Hne). cbn [bind].
    eexists. split; [reflexivity|]. cbn [run_count guess_counts win_rate
                                         avg_guesses].
    repeat split.
    + apply Qlt_shift_div_l; [exact (Qnat_pos _ Hlen)|].
      rewrite Qmult_0_l. exact (Qnat_pos _ Hne).
    + change 1%Q with (Qnat 1).
      apply (Qnat_ratio_bounds (win_count bot_results) (length bot_results)
               0 1); lia.
    + change 1%Q with (Qnat 1).
      apply (Qnat_ratio_bounds (won_guesses bot_results)
               (win_count bot_results) 1 6); lia.
    + change 6%Q with (Qnat 6).
      apply (Qnat_ratio_bounds (won_guesses bot_results)
               (win_count bot_results) 1 6); lia.
Qed.

Lemma summarize_report_witness :
  (win_count sample_results = 0 ->
   summarize 3 sample_results = Raise ZeroDivisionError) /\
  (win_count sample_results <> 0 ->
   exists tr,
     summarize 3 sample_results = Ok tr /\
     run_count tr = 3 /\
     guess_counts tr = count_guesses sample_results /\
     win_rate tr
     = (Qnat (win_count sample_results) / Qnat (length sample_results))%Q /\
     avg_guesses tr
     = (Qnat (won_guesses sample_results) / Qnat (win_count sample_results))%Q /\
     (0 < win_rate tr)%Q /\ (win_rate tr <= 1)%Q /\
     (1 <= avg_guesses tr)%Q /\ (avg_guesses tr <= 6)%Q).
Proof.
  apply (summarize_report 3 sample_results).
  repeat constructor; unfold played; simpl; lia.
Defined.

Example summarize_sample :
  summarize 3 sample_results
  = Ok (mkTestResults 3 (Qnat 2 / Qnat 3)%Q (Qnat 6 / Qnat 2)%Q
                      [(2, 1); (7, 1); (4, 1)]).
Proof. reflexivity. Qed.

Lemma play_loop_self_report (bot : Strategist)
    (judge : word -> result (record * bool)) (fuel : nat) :
  forall (self : Bot) (guess_ct : nat) (past : list record),
    play_loop bot judge fuel self guess_ct past
    = match play_loop_self bot judge fuel self guess_ct past with
      | None => None
      | Some (Raise e) => Some (Raise e)
      | Some (Ok (o, _)) => Some (Ok o)
      end.
Proof.
  induction fuel as [|fuel IH]; intros self ct past; [reflexivity|].
  cbn [play_loop play_loop_self].
  destruct (next_guess self past) as [[w self']|e]; [|reflexivity].
  destruct (judge w) as [res|e]; [|reflexivity].
  destruct (snd res); [reflexivity|].
  destruct (ct + 1 =? bot_max_guesses); [reflexivity | apply IH].
Qed.

Lemma play_loop_self_leaves (bot : Strategist)
    (judge : word -> result (record * bool)) (fuel : nat) (self : Bot) :
  6 <= fuel ->
  exists r,
    play_loop_self bot judge fuel self 0 [] = Some r /\
    match r with
    | Ok (o, _) => well_reported o
    | Raise _ => True
    end.
Proof.
  intros Hfuel.
  destruct (play_loop_runs bot judge fuel self [] self [])
    as [r [gs [s' [p' [Hr [_ [_ [_ Hw]]]]]]]];
    try (simpl; lia); [constructor|].
  simpl length in Hr. rewrite play_loop_self_report in Hr.
  destruct (play_loop_self bot judge fuel self 0 []) as [[[o s]|e]|];
    [| |discriminate].
  - injection Hr as <-. exists (Ok (o, s)). split; [reflexivity|].
    destruct o as [[win ct] past]. exact (proj2 Hw).
  - exists (Raise e). split; [reflexivity | exact I].
Qed.

Lemma well_reported_played (o : outcome) (t : word) :
  well_reported o ->
  played (mkGameResult (fst (fst o)) (snd (fst o)) t).
Proof.
  destruct o as [[win ct] past]. unfold well_reported, played. simpl.
  intros [_ [Hwon [Hlost _]]]. destruct win.
  - left. split; [reflexivity|]. destruct (Hwon eq_refl). lia.
  - right. split; [reflexivity|]. exact (proj1 (Hlost eq_refl)).
Qed.

Lemma Wordle_init_random (r : nat) (words : list word) :
  (words = [] /\ Wordle_init r words None = Raise IndexError) \/
  (words <> [] /\ exists w, Wordle_init r words None = Ok w).
Proof.
  destruct words as [|w0 words].
  - left. split; [reflexivity|].
    unfold Wordle_init, set_target, random_choice. simpl.
    destruct r; reflexivity.
  - right. split; [discriminate|].
    destruct (random_choice_ok r (w0 :: words)) as [t [Ht _]];
      [discriminate|].
    unfold Wordle_init, set_target. rewrite Ht. eexists. reflexivity.
Qed.

(** The first loop of [test_bot] comes to an end: either all the games are
    played, or the dictionary is empty, or one of the games raises after the
    games before it were played. *)
Lemma run_games_runs (bot : Strategist) (stream : nat -> nat -> nat)
    (words : list word) (fuel random_seed : nat) :
  6 <= fuel ->
  forall (run_ct : nat) (self : Bot) (rs : list game_result),
    Forall played rs ->
    exists r,
      run_games bot stream words fuel random_seed run_ct self rs = Some r /\
      match r with
      | Ok (rs', _) =>
          Forall played rs' /\ length rs' = length rs + run_ct /\
          (0 < run_ct -> words <> [])
      | Raise e =>
          0 < run_ct /\
          ((words = [] /\ e = IndexError) \/
           (words <> [] /\
            exists k rs_k self_k w,
              k < run_ct /\
              run_games bot stream words fuel random_seed k self rs
              = Some (Ok (rs_k, self_k)) /\
              length rs_k = length rs + k /\
              Wordle_init (stream (random_seed + length rs_k) 0) words None
              = Ok w /\
              play_game bot (try_word w) fuel
                (reseed self_k (stream (random_seed + length rs_k)))
              = Some (Raise e)))
      end.
Proof.
  intros Hfuel. induction run_ct as [|n IH]; intros self rs Hrs.
  - exists (Ok (rs, self)). split; [reflexivity|].
    repeat split; [exact Hrs | lia | lia].
  - cbn [run_games].
    destruct (Wordle_init_random (stream (random_seed + length rs) 0) words)
      as [[Hempty Hw]|[Hne [w Hw]]]; rewrite Hw.
    { exists (Raise IndexError). split; [reflexivity|].
      split; [lia|]. left. split; [exact Hempty | reflexivity]. }
    destruct (play_loop_self_leaves bot (try_word w) fuel
                (reset_state (reseed self (stream (random_seed + length rs))))
                Hfuel) as [r [Hr Ho]].
    rewrite Hr. destruct r as [[o self']|e].
    + destruct (IH self'
                  (rs ++ [mkGameResult (fst (fst o)) (snd (fst o)) (target w)]))
        as [r' [Hr' Ho']].
      { apply Forall_app. split; [exact Hrs|].
        constructor; [|constructor].
        apply well_reported_played. exact Ho. }
      exists r'. split; [exact Hr'|].
      destruct r' as [[rs' s']|e'].
      * destruct Ho' as [Hp [Hl _]]. rewrite length_app in Hl. simpl in Hl.
        repeat split; [exact Hp | lia | intros _; exact Hne].
      * destruct Ho' as [_ [[E _]|[_ [k [rs_k [self_k [w' Hk]]]]]]];
          [contradiction|].
        destruct Hk as [Hk [Hrun [Hlen [Hw' Hplay]]]].
        split; [lia|]. right. split; [exact Hne|].
        exists (S k), rs_k, self_k, w'.
        split; [lia|]. split.
        { cbn [run_games]. rewrite Hw, Hr. exact Hrun. }
        split; [rewrite Hlen, length_app; simpl; lia|].
        split; [exact Hw' | exact Hplay].
    + exists (Raise e). split; [reflexivity|].
      split; [lia|]. right. split; [exact Hne|].
      exists 0, rs, self, w.
      split; [lia|]. split; [reflexivity|]. split; [lia|].
      split; [exact Hw|].
      unfold play_game. rewrite play_loop_self_report, Hr. reflexivity.
Qed.

(** X19: [test_bot] comes to an end.  It raises ZeroDivisionError when no
    game is to be run and IndexError when games are to be run on an empty
    dictionary.  When it raises an exception, either the dictionary is empty
    and the exception is IndexError, or one of the games raised it, the
    games before it having been played, or all the games were played, none
    was won and the exception is ZeroDivisionError.  Otherwise all the games
    were played and it sets their summary: the counts of the histogram add
    up to [run_ct], the win rate is above 0 and at most 1 and the average
    number of guesses is between 1 and 6. *)
Theorem test_bot_report (bot : Strategist) (stream : nat -> nat -> nat)
    (words : list word) (fuel random_seed : nat) (self : Bot) (run_ct : nat)
    (Hfuel : 6 <= fuel) :
  exists r,
    test_bot bot stream words fuel random_seed self run_ct = Some r /\
    (run_ct = 0 -> r = Raise ZeroDivisionError) /\
    (0 < run_ct -> words = [] -> r = Raise IndexError) /\
    match r with
    | Ok tr =>
        (exists bot_results self',
            run_games bot stream words fuel random_seed run_ct self []
            = Some (Ok (bot_results, self')) /\
            length bot_results = run_ct /\
            Forall played bot_results /\
            win_count bot_results <> 0 /\
            summarize run_ct bot_results = Ok tr) /\
        run_count tr = run_ct /\
        list_sum (values (guess_counts tr)) = run_ct /\
        (0 < win_rate tr)%Q /\ (win_rate tr <= 1)%Q /\
        (1 <= avg_guesses tr)%Q /\ (avg_guesses tr <= 6)%Q
    | Raise e =>
        (0 < run_ct /\ words = [] /\ e = IndexError) \/
        (exists k bot_results self_k w,
            k < run_ct /\
            run_games bot stream words fuel random_seed k self []
            = Some (Ok (bot_results, self_k)) /\
            length bot_results = k /\
            Wordle_init (stream (random_seed + k) 0) words None = Ok w /\
            play_game bot (try_word w) fuel
              (reseed self_k (stream (random_seed + k)))
            = Some (Raise e)) \/
        (exists bot_results self',
            run_games bot stream words fuel random_seed run_ct self []
            = Some (Ok (bot_results, self')) /\
            length bot_results = run_ct /\
            win_count bot_results = 0 /\
            e = ZeroDivisionError)
    end.
Proof.
  unfold test_bot.
  destruct (run_games_runs bot stream words fuel random_seed Hfuel run_ct
              self []) as [r [Hr Ho]]; [constructor|].
  rewrite Hr. destruct r as [[rs s]|e].
  - destruct Ho as [Hp [Hl Hw]]. simpl in Hl.
    exists (summarize run_ct rs). split; [reflexivity|].
    destruct (weighted_played rs Hp) as [Hsum [Hbounds Hle]].
    assert (Hws : weighted_sum (count_guesses rs) = won_guesses rs).
    { rewrite count_guesses_fold, weighted_fold. exact Hsum. }
    split; [|split].
    + intros E. subst run_ct. destruct rs; [reflexivity | discriminate].
    + intros Hpos E. exfalso. exact (Hw Hpos E).
    + destruct (Nat.eq_dec (win_count rs) 0) as [E0|Hne].
      * assert (Hz : summarize run_ct rs = Raise ZeroDivisionError).
        { rewrite summarize_unfold, Hws, E0.
          destruct (Nat.eq_dec (length rs) 0) as [E|E].
          - rewrite E. reflexivity.
          - rewrite (true_div_nat_ok _ _ E). cbn [bind].
            rewrite true_div_zero. reflexivity. }
        rewrite Hz. right. right. exists rs, s.
        repeat split; assumption.
      * assert (Hlen : length rs <> 0) by lia.
        assert (Hs : summarize run_ct rs
                     = Ok (mkTestResults run_ct
                             (Qnat (win_count rs) / Qnat (length rs))%Q
                             (Qnat (won_guesses rs) / Qnat (win_count rs))%Q
                             (count_guesses rs))).
        { rewrite summarize_unfold, Hws.
          rewrite (true_div_nat_ok _ _ Hlen). cbn [bind].
          rewrite (true_div_nat_ok _ _ Hne). reflexivity. }
        rewrite Hs. cbn [run_count guess_counts win_rate avg_guesses].
        split.
        { exists rs, s. repeat split; try assumption. }
        split; [reflexivity|].
        split; [rewrite count_guesses_fold, values_fold; simpl; exact Hl|].
        repeat split.
        -- apply Qlt_shift_div_l; [exact (Qnat_pos _ Hlen)|].
           rewrite Qmult_0_l. exact (Qnat_pos _ Hne).
        -- change 1%Q with (Qnat 1).
           apply (Qnat_ratio_bounds (win_count rs) (length rs) 0 1); lia.
        -- change 1%Q with (Qnat 1).
           apply (Qnat_ratio_bounds (won_guesses rs) (win_count rs) 1 6); lia.
        -- change 6%Q with (Qnat 6).
           apply (Qnat_ratio_bounds (won_guesses rs) (win_count rs) 1 6); lia.
  - destruct Ho as [Hpos Hcase].
    exists (Raise e). split; [reflexivity|].
    split; [|split].
    + intros E. lia.
    + intros _ E. destruct Hcase as [[_ ->]|[Hne _]];
        [reflexivity | contradiction].
    + destruct Hcase as [[E ->]|[_ [k [rs_k [self_k [w Hk]]]]]].
      * left. repeat split; assumption.
      * destruct Hk as [Hk [Hrun [Hlen [Hw Hplay]]]]. simpl in Hlen.
        right. left. exists k, rs_k, self_k, w.
        rewrite Hlen in Hw, Hplay. repeat split; assumption.
Qed.

Lemma test_bot_report_witness :
  exists r,
    test_bot FreqFilterBot (fun seed n => seed + n) ack_words 6 12 ack_bot 3
    = Some r /\
    (3 = 0 -> r = Raise ZeroDivisionError) /\
    (0 < 3 -> ack_words = [] -> r = Raise IndexError) /\
    match r with
    | Ok tr =>
        (exists bot_results self',
            run_games FreqFilterBot (fun seed n => seed + n) ack_words 6 12 3
                      ack_bot []
            = Some (Ok (bot_results, self')) /\
            length bot_results = 3 /\
            Forall played bot_results /\
            win_count bot_results <> 0 /\
            summarize 3 bot_results = Ok tr) /\
        run_count tr = 3 /\
        list_sum (values (guess_counts tr)) = 3 /\
        (0 < win_rate tr)%Q /\ (win_rate tr <= 1)%Q /\
        (1 <= avg_guesses tr)%Q /\ (avg_guesses tr <= 6)%Q
    | Raise e =>
        (0 < 3 /\ ack_words = [] /\ e = IndexError) \/
        (exists k bot_results self_k w,
            k < 3 /\
            run_games FreqFilterBot (fun seed n => seed + n) ack_words 6 12 k
                      ack_bot []
            = Some (Ok (bot_results, self_k)) /\
            length bot_results = k /\
            Wordle_init (12 + k + 0) ack_words None = Ok w /\
            play_game FreqFilterBot (try_word w) 6
              (reseed self_k (fun n => 12 + k + n))
            = Some (Raise e)) \/
        (exists bot_results self',
            run_games FreqFilterBot (fun seed n => seed + n) ack_words 6 12 3
                      ack_bot []
            = Some (Ok (bot_results, self')) /\
            length bot_results = 3 /\
            win_count bot_results = 0 /\
            e = ZeroDivisionError)
    end.
Proof.
  apply (test_bot_report FreqFilterBot (fun seed n => seed + n) ack_words 6 12
           ack_bot 3).
  lia.
Defined.

Example test_bot_ack :
  test_bot FreqFilterBot (fun seed n => seed + n) ack_words 6 12 ack_bot 3
  = Some (Ok (mkTestResults 3 (Qnat 3 / Qnat 3)%Q (Qnat 5 / Qnat 3)%Q
                            [(2, 2); (1, 1)])).
Proof. vm_compute. reflexivity. Qed.

(** ** Loading the dictionary *)








Example create_dictionary_sample :
  create_dictionary (String "w" (String "h" (String newline (String "o"
                       (String newline EmptyString)))))
  = [str "wh"; str "o"; str ""].
Proof. reflexivity. Qed.

(** ** The scores are numbers *)




